(** * osm_clipper: ring filtering and [.poly] emission

    A shallow embedding of [src/osm_clipper.py]:
    - [remove_tiny_shapes]  (the geometry simplifier),
    - [global_shapefiles]   (the country branch and the regional branch),
    - [poly_files]          (the boundary writer),
    - [clip_osm_osmconvert] and [clip_osm_osmosis] (the clip wrappers).

    Conventions.
    - A Python float is modelled by the rational it denotes (every finite
      binary64 value is a dyadic rational), so a numeric literal of the source
      is the exact value of its binary64 rounding and [<], [>] are the exact
      comparisons.  NaN and infinities are outside the model.
    - Functions of third-party libraries whose result the source only compares
      or prints ([pygeos.area], shapely's centroid, geopy's [geodesic], [str]
      on a float, [os.system]) are parameters of the development.
    - A function that can raise gives an [outcome]: the value it returns or
      the exception it raises.
    - A file system is a finite map from paths to file contents. *)

From Stdlib Require Import Ascii String QArith Qabs DecimalString.
From stdpp Require Import gmap strings list fin_maps.

(** ** Numbers *)

Module Num.

(** [dyadic m k] is m / 2^k. *)
Definition dyadic (m : Z) (k : positive) : Q := m # (2 ^ k)%positive.

(** The float literals of the source, as the binary64 values Python reads. *)
Definition f0_1 : Q := dyadic 3602879701896397 55.    (* 0.1   *)
Definition f0_01 : Q := dyadic 5764607523034235 59.   (* 0.01  *)
Definition f0_001 : Q := dyadic 1152921504606847 60.  (* 0.001 *)
Definition f0_05 : Q := dyadic 3602879701896397 56.   (* 0.05  *)
Definition f0_2 : Q := dyadic 3602879701896397 54.    (* 0.2   *)
Definition f83_24 : Q := dyadic 5857494265348751 46.  (* 83.24 *)
Definition f79_80 : Q := dyadic 5615425785377587 46.  (* 79.80 *)
Definition f58_89 : Q := dyadic 4144015344622633 46.  (* 58.89 *)
Definition f82_26 : Q := dyadic 5788532896054641 46.  (* 82.26 *)

(** Python's [a < b] and [a > b] on finite numbers. *)
Definition ltb (a b : Q) : bool := (Qnum a * QDen b <? Qnum b * QDen a)%Z.
Definition gtb (a b : Q) : bool := ltb b a.

#[global] Instance Qlt_decision (a b : Q) : Decision (a < b)%Q :=
  match Qlt_le_dec a b with
  | left H => left H
  | right H => right (Qle_not_lt _ _ H)
  end.

#[global] Instance Qle_decision (a b : Q) : Decision (a <= b)%Q :=
  match Qlt_le_dec b a with
  | left H => right (Qlt_not_le _ _ H)
  | right H => left H
  end.

(** [near d x] : the literal value [x] is within half a unit in the last
    place of the decimal [d] it was written as (relative error 2^-53). *)
Definition near (d x : Q) : Prop := (Qabs (x - d) <= Qabs d * (1 # 2 ^ 53))%Q.

End Num.

(** ** Exceptions *)

(** Exceptions the modelled code can raise. *)
Inductive exn :=
  | UnboundLocalError | TypeError | AttributeError | OSError | ValueError | KeyError.

(** What a call gives: the value returned, or the exception raised. *)
Inductive outcome (A : Type) :=
  | Returns (a : A)
  | Raises (e : exn).

Arguments Returns {A} a.
Arguments Raises {A} e.

Definition outcome_map {A B} (f : A -> B) (o : outcome A) : outcome B :=
  match o with
  | Returns a => Returns (f a)
  | Raises e => Raises e
  end.

(** A call on every element in order; the first exception ends it. *)
Fixpoint traverse {A B} (f : A -> outcome B) (l : list A) : outcome (list B) :=
  match l with
  | [] => Returns []
  | a :: l' =>
      match f a with
      | Raises e => Raises e
      | Returns b => outcome_map (cons b) (traverse f l')
      end
  end.

(** [progress_apply(f, axis=1)] on the rows of a table, with the result
    assigned to a column: on a table without rows the apply gives an empty
    frame back, and the assignment raises. *)
Definition progress_apply {A B} (f : A -> outcome B) (rows : list A) : outcome (list B) :=
  match rows with
  | [] => Raises ValueError
  | _ :: _ => traverse f rows
  end.

(** ** Geometries *)

(** A coordinate pair, in the order shapely stores it: (lon, lat). *)
Definition coord : Type := Q * Q.

Record polygon := mkPolygon {
  exterior : list coord;
  interiors : list (list coord)
}.

(** The geometry kinds other than the two the program handles. [Missing] is a
    missing geometry ([None]). *)
Inductive other_kind :=
  | Missing | Point | LineString | LinearRing
  | MultiPoint | MultiLineString | GeometryCollection.

Inductive geometry :=
  | Polygon (p : polygon)
  | MultiPolygon (ps : list polygon)
  | OtherGeometry (k : other_kind).

(** [pygeos.geometry.get_type_id] *)
Definition get_type_id (g : geometry) : Z :=
  match g with
  | OtherGeometry Missing => -1
  | OtherGeometry Point => 0
  | OtherGeometry LineString => 1
  | OtherGeometry LinearRing => 2
  | Polygon _ => 3
  | OtherGeometry MultiPoint => 4
  | OtherGeometry MultiLineString => 5
  | MultiPolygon _ => 6
  | OtherGeometry GeometryCollection => 7
  end.

(** shapely's [geom_type]; a missing geometry has no such attribute. *)
Definition geom_type (g : geometry) : option string :=
  match g with
  | OtherGeometry Missing => None
  | OtherGeometry Point => Some "Point"
  | OtherGeometry LineString => Some "LineString"
  | OtherGeometry LinearRing => Some "LinearRing"
  | Polygon _ => Some "Polygon"
  | OtherGeometry MultiPoint => Some "MultiPoint"
  | OtherGeometry MultiLineString => Some "MultiLineString"
  | MultiPolygon _ => Some "MultiPolygon"
  | OtherGeometry GeometryCollection => Some "GeometryCollection"
  end.

(** [pygeos.geometry.get_num_geometries] *)
Definition get_num_geometries (g : geometry) : nat :=
  match g with
  | Polygon _ => 1
  | MultiPolygon ps => length ps
  | OtherGeometry _ => 0
  end.

(** [pygeos.geometry.get_geometry]: the part at an index, if there is one. *)
Definition get_geometry (g : geometry) (i : nat) : option polygon :=
  match g with
  | Polygon p => match i with O => Some p | S _ => None end
  | MultiPolygon ps => ps !! i
  | OtherGeometry _ => None
  end.

(** [pygeos.creation.multipolygons] on [numpy.array] of a list of polygons:
    one multipolygon of them. Of an empty list [numpy.array] makes an array of
    numbers, not of geometries, and the call raises. *)
Definition multipolygons (ps : list polygon) : outcome geometry :=
  match ps with
  | [] => Raises ValueError
  | _ :: _ => Returns (MultiPolygon ps)
  end.

(** ** Catalog rows *)

(** One row of the administrative catalog. A column that holds no value
    reads as [None]. Which columns a table has is recorded with the table
    (see [table] and [poly_files_table]): reading a column that is not there
    raises. *)
Record row := mkRow {
  GID_0 : string;
  GID_1 : option string;
  GID_2 : option string;
  GID_3 : option string;
  GID_4 : option string;
  GID_5 : option string;
  TYPE_1 : option string;
  geom : geometry
}.

(** The identifying code of a row at an administrative level. *)
Definition GID (level : nat) (f : row) : option string :=
  match level with
  | 0 => Some (GID_0 f)
  | 1 => GID_1 f
  | 2 => GID_2 f
  | 3 => GID_3 f
  | 4 => GID_4 f
  | 5 => GID_5 f
  | _ => None
  end%nat.

Definition set_geom (g : geometry) (f : row) : row :=
  mkRow (GID_0 f) (GID_1 f) (GID_2 f) (GID_3 f) (GID_4 f) (GID_5 f) (TYPE_1 f) g.

(** A table as [geopandas.read_file] gives it: the names of its columns and
    its rows. The field of a row under a column that the table does not have
    stands for nothing and is never read: reading such a column raises
    KeyError. *)
Record table := mkTable {
  table_columns : list string;
  table_rows : list row
}.

(** ** remove_tiny_shapes *)

Section Simplifier.

(** [pygeos.area], for a whole geometry and for one part of it. *)
Variable area : geometry -> Q.

(** Lines 42-48: the pair (area1, area2). *)
Definition area_bounds (regionalized : bool) : Q * Q :=
  if regionalized then (Num.f0_01, 50%Q) else (Num.f0_1, 250%Q).

(** Lines 55-66: the per-ring threshold. *)
Definition select_threshold (x : row) (regionalized : bool) : Q :=
  if bool_decide (GID_0 x ∈ ["CHL"; "IDN"]) then Num.f0_01
  else if bool_decide (GID_0 x ∈ ["RUS"; "GRL"; "CAN"; "USA"]) then
    (if regionalized then Num.f0_01 else Num.f0_01)
  else if Num.gtb (area (geom x)) (snd (area_bounds regionalized)) then Num.f0_1
  else Num.f0_001.

(** Lines 69-72: the loop over the indices of the parts. *)
Definition new_geom (g : geometry) (threshold : Q) : list polygon :=
  foldl (fun acc index_ =>
           match get_geometry g index_ with
           | Some part =>
               if Num.gtb (area (Polygon part)) threshold then acc ++ [part] else acc
           | None => acc
           end)
        [] (seq 0 (get_num_geometries g)).

(** [remove_tiny_shapes x regionalized]; [Returns None] is Python's [None],
    which the function returns when neither branch is taken. Line 74 raises
    when no part is left. *)
Definition remove_tiny_shapes (x : row) (regionalized : bool) : outcome (option geometry) :=
  if (get_type_id (geom x) =? 3)%Z then Returns (Some (geom x))
  else if (get_type_id (geom x) =? 6)%Z then
    if Num.ltb (area (geom x)) (fst (area_bounds regionalized)) then Returns (Some (geom x))
    else outcome_map Some
           (multipolygons (new_geom (geom x) (select_threshold x regionalized)))
  else Returns None.

End Simplifier.

(** ** Text *)

Module Text.

(** The newline character and the one-character string the source writes
    as a line end. *)
Definition nl_char : ascii := "010"%char.
Definition nl : string := String nl_char "".

(** [str] on a non-negative integer. *)
Definition str_nat (n : nat) : string := NilEmpty.string_of_uint (Nat.to_uint n).

(** Concatenation of a list of strings. *)
Definition cat (l : list string) : string := foldr String.append "" l.

(** [occurs c s]: the character occurs in the string. *)
Fixpoint occurs (c : ascii) (s : string) : bool :=
  match s with
  | EmptyString => false
  | String a s' => bool_decide (a = c) || occurs c s'
  end.

(** [fields sep s]: the pieces of [s] between occurrences of [sep]
    (Python's [s.split(sep)]). *)
Fixpoint fields (sep : ascii) (s : string) : list string :=
  match s with
  | EmptyString => [""]
  | String a s' =>
      if bool_decide (a = sep) then "" :: fields sep s'
      else match fields sep s' with
           | piece :: rest => String a piece :: rest
           | [] => [String a ""]
           end
  end.

(** The lines of a text, and the blank-separated columns of a line. *)
Definition lines (s : string) : list string := fields nl_char s.
Definition columns (s : string) : list string :=
  filter (fun piece => piece ≠ "") (fields " "%char s).

(** A column entry: not empty, and free of blanks and line ends. *)
Definition is_token (s : string) : bool :=
  negb (bool_decide (s = "")) && negb (occurs " "%char s) && negb (occurs nl_char s).

(** [os.path.join] of two components (POSIX). *)
Definition path_join (a b : string) : string :=
  match b with
  | String "/"%char _ => b
  | _ => if bool_decide (a = "") then b
         else match String.rev a with
              | String "/"%char _ => a +:+ b
              | _ => a +:+ "/" +:+ b
              end
  end.

End Text.

(** ** The world the program acts on *)

Inductive result := Ok | Raise (e : exn).

(** Files by path, the lines printed so far, and the shell commands handed to
    [os.system] so far. *)
Record world := mkWorld {
  files : gmap string string;
  stdout : list string;
  calls : list string
}.

Definition exists_path (w : world) (path : string) : bool :=
  bool_decide (is_Some (files w !! path)).

Definition print (line : string) (w : world) : world :=
  mkWorld (files w) (stdout w ++ [line]) (calls w).

(** [open(path, 'w')]: the file is created or truncated. *)
Definition open_w (path : string) (w : world) : world :=
  mkWorld (<[path := ""]> (files w)) (stdout w) (calls w).

(** [f.write(s)] on the file opened at [path]. *)
Definition write (path s : string) (w : world) : world :=
  mkWorld (<[path := default "" (files w !! path) +:+ s]> (files w)) (stdout w) (calls w).

(** ** poly_files *)

Section Writer.

(** shapely's [centroid] of a polygon, as (lon, lat). *)
Variable centroid : polygon -> coord.
(** geopy's [geodesic(p, q, ellipsoid='WGS-84').kilometers]; points are
    (lat, lon). *)
Variable geodesic_km : Q * Q -> Q * Q -> Q.
(** [str] on a coordinate. *)
Variable str_float : Q -> string.

Definition reversed (c : coord) : Q * Q := (snd c, fst c).

(** Lines 298-307: is the ring left out? The second component is the line
    printed on the way, if any. *)
Definition skip_ring (ctry attr : string) (polygon : polygon) : bool * option string :=
  if bool_decide (ctry = "CAN")
     && Num.ltb (geodesic_km (reversed (centroid polygon)) (Num.f83_24, - Num.f79_80)%Q) 2000
  then (true, None)
  else if bool_decide (ctry = "RUS")
          && Num.ltb (geodesic_km (reversed (centroid polygon)) (Num.f58_89, Num.f82_26)) 500
  then (true, Some attr)
  else (false, None).

(** Line 316: one vertex line. *)
Definition vertex_line (ring : coord) : string :=
  "    " +:+ str_float (fst ring) +:+ "     " +:+ str_float (snd ring) +:+ Text.nl.

(** Lines 296-320: the body of the loop over the polygons; the state is the
    ring counter [i] and the world. *)
Definition ring_step (ctry attr path : string) (st : nat * world) (polygon : polygon)
  : nat * world :=
  let '(i, w) := st in
  match skip_ring ctry attr polygon with
  | (true, None) => (i, w)
  | (true, Some line) => (i, print line w)
  | (false, _) =>
      let w1 := write path (Text.str_nat i +:+ Text.nl) w in
      let w2 := foldl (fun w' ring => write path (vertex_line ring) w') w1 (exterior polygon) in
      (S i, write path ("END" +:+ Text.nl) w2)
  end.

(** Lines 283-286: the identifying code of the row, in a table that has
    the column read; [None] is a [GID_1] that holds no value. *)
Definition attr_of (regionalized : bool) (f : row) : option string :=
  if regionalized then GID_1 f else Some (GID_0 f).

(** Line 289: the name of the artifact. *)
Definition poly_path (poly_dir attr : string) : string :=
  poly_dir +:+ "/" +:+ attr +:+ ".poly".

(** The variables of [poly_files] that live across iterations of the loop
    over the rows: [polygons] is unbound until a row binds it. *)
Record loop_vars := mkVars {
  num : nat;
  polygons : option (list polygon)
}.

(** Lines 274-279: [polygons] is bound anew for a multipolygon (to its
    parts) and for a polygon (to the list of that polygon); for any other
    geometry no branch is taken and the variable keeps what it had. *)
Definition rebind_polygons (g : geometry) (old : option (list polygon))
  : option (list polygon) :=
  match g with
  | MultiPolygon ps => Some ps
  | Polygon p => Some [p]
  | OtherGeometry _ => old
  end.

(** Lines 268-324: the body of the loop over the rows. *)
Definition poly_row (regionalized : bool) (poly_dir : string)
    (st : loop_vars * world) (f : row) : loop_vars * world * result :=
  let '(v, w) := st in
  let num' := S (num v) in
  match geom_type (geom f) with
  | None => (mkVars num' (polygons v), w, Raise AttributeError)
  | Some _ =>
      let v' := mkVars num' (rebind_polygons (geom f) (polygons v)) in
      let ctry := GID_0 f in
      match attr_of regionalized f with
      | None => (v', w, Raise TypeError)
      | Some attr =>
          let path := poly_path poly_dir attr in
          let w1 := write path (attr +:+ Text.nl) (open_w path w) in
          match polygons v' with
          | None => (v', w1, Raise UnboundLocalError)
          | Some ps =>
              let '(_, w2) := foldl (ring_step ctry attr path) (O, w1) ps in
              (v', write path ("END" +:+ Text.nl) w2, Ok)
          end
      end
  end.

(** The loop over the rows: an exception ends it. *)
Fixpoint poly_rows (regionalized : bool) (poly_dir : string)
    (st : loop_vars * world) (rows : list row) : loop_vars * world * result :=
  match rows with
  | [] => (st, Ok)
  | f :: rest =>
      match poly_row regionalized poly_dir st f with
      | (st', Ok) => poly_rows regionalized poly_dir st' rest
      | (st', Raise e) => (st', Raise e)
      end
  end.

(** Lines 252-257: the rows kept, in a table that has the columns read; a
    [TYPE_1] that holds no value differs from ['Water body']. *)
Definition keep_row (regionalized : bool) (f : row) : bool :=
  if regionalized
  then bool_decide (GID_0 f ≠ "-") && bool_decide (TYPE_1 f ≠ Some "Water body")
  else bool_decide (GID_0 f ≠ "-").

(** [poly_files data_path global_shape regionalized], where [wb_poly] holds
    the rows of the table read from [global_shape], a table that has the
    columns read ([GID_0] and, when regionalized, [TYPE_1] and [GID_1]); for
    any table see [poly_files_table]. Directories are not modelled. *)
Definition poly_files (data_path : string) (wb_poly : list row) (regionalized : bool)
    (w : world) : loop_vars * world * result :=
  let poly_dir :=
    if regionalized then Text.path_join data_path "regional_poly_files"
    else Text.path_join data_path "country_poly_files" in
  poly_rows regionalized poly_dir (mkVars O None, w) (filter (keep_row regionalized) wb_poly).

(** [poly_files] on any table. Lines 253 and 257 read the column [GID_0] of
    the table and line 254, when regionalized, the column [TYPE_1]: KeyError
    when the column is not there, before any row is looked at. Line 284,
    when regionalized, reads [GID_1] of the row at hand: without that column
    the first row of the loop raises KeyError, after line 270 read its
    geometry and lines 274-279 bound [polygons], and before the file is
    opened. *)
Definition poly_files_table (data_path : string) (t : table) (regionalized : bool)
    (w : world) : loop_vars * world * result :=
  if bool_decide ("GID_0" ∉ table_columns t) then (mkVars O None, w, Raise KeyError)
  else if regionalized && bool_decide ("TYPE_1" ∉ table_columns t)
  then (mkVars O None, w, Raise KeyError)
  else if regionalized && bool_decide ("GID_1" ∉ table_columns t) then
    match filter (keep_row regionalized) (table_rows t) with
    | [] => (mkVars O None, w, Ok)
    | f :: _ =>
        match geom_type (geom f) with
        | None => (mkVars 1 None, w, Raise AttributeError)
        | Some _ => (mkVars 1 (rebind_polygons (geom f) None), w, Raise KeyError)
        end
    end
  else poly_files data_path (table_rows t) regionalized w.

(** *** The artifact, described *)

(** The rings of a row that are written, and the lines printed for those
    that are not. *)
Definition emitted (ctry attr : string) (ps : list polygon) : list polygon :=
  filter (fun p => fst (skip_ring ctry attr p) = false) ps.

Definition printed (ctry attr : string) (ps : list polygon) : list string :=
  omap (fun p => snd (skip_ring ctry attr p)) ps.

(** The text of one ring: its index line, its vertex lines, [END]. *)
Definition ring_block (i : nat) (p : polygon) : string :=
  Text.str_nat i +:+ Text.nl +:+ Text.cat (vertex_line <$> exterior p) +:+ "END" +:+ Text.nl.

(** The text of an artifact: the label line, the rings numbered from 0 in
    their order, [END]. *)
Definition poly_text (attr : string) (rings : list polygon) : string :=
  attr +:+ Text.nl
    +:+ Text.cat (zip_with ring_block (seq 0 (length rings)) rings)
    +:+ "END" +:+ Text.nl.

(** The columns of a ring as they stand in the text. *)
Definition vertex_text (ring : coord) : string * string :=
  (str_float (fst ring), str_float (snd ring)).

(** Every coordinate of the rings prints as a column entry. *)
Definition printable (rings : list polygon) : bool :=
  forallb (fun p => forallb (fun v => Text.is_token (str_float (fst v))
                                        && Text.is_token (str_float (snd v)))
                            (exterior p)) rings.

End Writer.

(** ** The format of a boundary artifact, read back *)

Module PolyFormat.

(** A ring as text: the line that introduces it and its vertex columns. *)
Definition ring_text : Type := string * list (string * string).

(** Modelled from the spec: the reader of a boundary artifact is not part of
    the repository (the artifact is consumed by an external clipping tool);
    this one follows the format of section 6 of the specification: the
    first line is the area label; each ring is introduced by its index on a
    line of its own; each vertex is a line of two blank-padded columns; a
    line [END] closes each ring and a last line [END] closes the file.
    [cur] is the ring being read, with its vertices in reverse; [acc] holds
    the rings already closed, in reverse. *)
Fixpoint parse_rings (ls : list string) (cur : option ring_text) (acc : list ring_text)
  : option (list ring_text) :=
  match ls with
  | [] => None
  | l :: rest =>
      match cur with
      | None =>
          if bool_decide (l = "END") then Some (rev acc)
          else parse_rings rest (Some (l, [])) acc
      | Some (index, vs) =>
          if bool_decide (l = "END") then parse_rings rest None ((index, rev vs) :: acc)
          else match Text.columns l with
               | [x; y] => parse_rings rest (Some (index, (x, y) :: vs)) acc
               | _ => None
               end
      end
  end.

(** Modelled from the spec: the label and the rings of an artifact text
    (same reader as [parse_rings]). *)
Definition parse_poly (text : string) : option (string * list ring_text) :=
  match Text.lines text with
  | label :: ls =>
      match parse_rings ls None [] with
      | Some rings => Some (label, rings)
      | None => None
      end
  | [] => None
  end.

End PolyFormat.

(** ** clip_osm_osmconvert and clip_osm_osmosis *)

Section Clip.

(** [os.system]: what running a shell command does to the files, and
    whether the call itself raised. *)
Variable os_system : string -> gmap string string -> gmap string string * result.
(** The text [str.format] gives for the function object [planet_osm], which
    line 383 passes where a path was meant. *)
Variable planet_osm_repr : string.

Definition system (cmd : string) (w : world) : world * result :=
  let '(fs, r) := os_system cmd (files w) in
  (mkWorld fs (stdout w) (calls w ++ [cmd]), r).

(** Lines 350-356 and 381-387: the guarded call, shared by both wrappers. *)
Definition clip_with (cmd area_pbf : string) (w : world) : world :=
  let w0 := print (area_pbf +:+ " started!") w in
  if negb (exists_path w0 area_pbf) then
    match system cmd w0 with
    | (w1, Ok) => print (area_pbf +:+ " finished!") w1
    | (w1, Raise _) => print (area_pbf +:+ " did not finish!") w1
    end
  else print (area_pbf +:+ " finished!") w0.

Definition clip_osm_osmconvert (data_path planet_path area_poly area_pbf : string)
    (w : world) : world :=
  let osm_convert_path := "osmconvert64-0.8.8p" in
  clip_with (osm_convert_path +:+ "  " +:+ planet_path +:+ " -B=" +:+ area_poly
               +:+ " --complete-ways -o=" +:+ area_pbf)
            area_pbf w.

Definition clip_osm_osmosis (data_path planet_path area_poly area_pbf : string)
    (w : world) : world :=
  let osmosis_convert_path := "osmosis" in
  let q := String "034"%char "" in
  clip_with (osmosis_convert_path +:+ " --read-xml file=" +:+ q +:+ planet_osm_repr +:+ q
               +:+ " --bounding-polygon file=" +:+ q +:+ area_poly +:+ q
               +:+ " --write-xml file=" +:+ q +:+ area_pbf +:+ q)
            area_pbf w.

End Clip.

(** ** global_shapefiles: countries without sub-regions *)

Module Regions.

Definition set_GID_1 (c : string) (f : row) : row :=
  mkRow (GID_0 f) (Some c) (GID_2 f) (GID_3 f) (GID_4 f) (GID_5 f) (TYPE_1 f) (geom f).
Definition set_GID_2 (c : string) (f : row) : row :=
  mkRow (GID_0 f) (GID_1 f) (Some c) (GID_3 f) (GID_4 f) (GID_5 f) (TYPE_1 f) (geom f).
Definition set_GID_3 (c : string) (f : row) : row :=
  mkRow (GID_0 f) (GID_1 f) (GID_2 f) (Some c) (GID_4 f) (GID_5 f) (TYPE_1 f) (geom f).
Definition set_GID_4 (c : string) (f : row) : row :=
  mkRow (GID_0 f) (GID_1 f) (GID_2 f) (GID_3 f) (Some c) (GID_5 f) (TYPE_1 f) (geom f).
Definition set_GID_5 (c : string) (f : row) : row :=
  mkRow (GID_0 f) (GID_1 f) (GID_2 f) (GID_3 f) (GID_4 f) (Some c) (TYPE_1 f) (geom f).

Definition str_0 : string := Text.str_nat 0.
Definition str_1 : string := Text.str_nat 1.

(** Lines 189-198: the region code given to a row of the country table. *)
Definition fill_region_code (assigned_level : nat) (f : row) : row :=
  match assigned_level with
  | 1 => set_GID_1 (GID_0 f +:+ "." +:+ str_0 +:+ "_" +:+ str_1) f
  | 2 => set_GID_2 (GID_0 f +:+ "." +:+ str_0 +:+ "." +:+ str_0 +:+ "_" +:+ str_1) f
  | 3 => set_GID_3 (GID_0 f +:+ "." +:+ str_0 +:+ "." +:+ str_0 +:+ "." +:+ str_0
                      +:+ "_" +:+ str_1) f
  | 4 => set_GID_4 (GID_0 f +:+ "." +:+ str_0 +:+ "." +:+ str_0 +:+ "." +:+ str_0
                      +:+ "." +:+ str_0 +:+ "_" +:+ str_1) f
  | 5 => set_GID_5 (GID_0 f +:+ "." +:+ str_0 +:+ "." +:+ str_0 +:+ "." +:+ str_0
                      +:+ "." +:+ str_0 +:+ "." +:+ str_0 +:+ "_" +:+ str_1) f
  | _ => f
  end%nat.

(** Line 185: the country codes of the country table that no row of the
    region table carries. *)
Definition get_missing_countries (gadm_level0 gadm_level_x : list row) : gset string :=
  list_to_set (GID_0 <$> gadm_level0) ∖ list_to_set (GID_0 <$> gadm_level_x).

(** Line 188: the rows of the country table for those codes. *)
Definition mis_country (gadm_level0 gadm_level_x : list row) : list row :=
  filter (fun f => GID_0 f ∈ get_missing_countries gadm_level0 gadm_level_x) gadm_level0.

(** Lines 184-202: the region table with the substitute rows appended (a
    fragment: see [global_shapefiles_regional]). *)
Definition add_missing_countries (assigned_level : nat)
    (gadm_level0 gadm_level_x : list row) : list row :=
  gadm_level_x ++ (fill_region_code assigned_level <$> mis_country gadm_level0 gadm_level_x).

(** [n] occurrences of [s] in a row. *)
Fixpoint repeat_str (n : nat) (s : string) : string :=
  match n with
  | O => ""
  | S n' => s +:+ repeat_str n' s
  end.

(** Lines 161-208, the regional branch: [country_file] is the table of the
    cleaned country file if that file exists, [layer] the region table read
    at line 171. Without the country file the branch prints and returns
    [None]. With it, line 175 applies [remove_tiny_shapes] to the rows of the
    layer as geopandas read them: unlike the country branch (lines 137-139)
    this branch does not convert the geometries with [pygeos.from_shapely],
    and [pygeos.geometry.get_type_id] (line 36) raises TypeError on the first
    row; on a layer without rows the assignment of line 175 raises
    ValueError (see [progress_apply]). Lines 177-208, among them the lines
    184-202 of [add_missing_countries], are not reached. *)
Definition global_shapefiles_regional (assigned_level : nat)
    (country_file : option (list row)) (layer : list row) (w : world)
  : outcome (option (list row)) * world :=
  match country_file with
  | None => (Returns None, print "ERROR: You need to create the country file first" w)
  | Some gadm_level0 =>
      (outcome_map (fun _ : list (option geometry) => None)
                   (progress_apply (fun _ : row => Raises TypeError) layer), w)
  end.

End Regions.

(** ** Sample data *)

Module Demo.

Local Open Scope Q_scope.

(** Twice the signed planar area enclosed by a closed ring. *)
Fixpoint shoelace (ring : list coord) : Q :=
  match ring with
  | (x1, y1) :: (((x2, y2) :: _) as rest) => x1 * y2 - x2 * y1 + shoelace rest
  | _ => 0
  end.

Definition ring_area (ring : list coord) : Q := Qabs (shoelace ring) / 2.

Definition polygon_area (p : polygon) : Q :=
  ring_area (exterior p) - foldr Qplus 0 (ring_area <$> interiors p).

(** The planar area of a geometry, in the units of its coordinates. *)
Definition planar_area (g : geometry) : Q :=
  match g with
  | Polygon p => polygon_area p
  | MultiPolygon ps => foldr Qplus 0 (polygon_area <$> ps)
  | OtherGeometry _ => 0
  end.

(** An axis-parallel rectangle with its lower left corner at (x, y). *)
Definition rect (x y w h : Q) : polygon :=
  mkPolygon [(x, y); (x + w, y); (x + w, y + h); (x, y + h); (x, y)] [].

Definition country (code : string) (g : geometry) : row :=
  mkRow code None None None None None None g.

Definition region (code0 code1 : string) (g : geometry) : row :=
  mkRow code0 (Some code1) None None None None (Some "Province") g.

(** Three rings of planar areas 0.05, 0.2 and 50. *)
Definition ring_a : polygon := rect 0 0 1 Num.f0_05.
Definition ring_b : polygon := rect 10 0 1 Num.f0_2.
Definition ring_c : polygon := rect 20 0 10 5.


(** A small archipelago: total planar area 0.06, below the floor 0.1. *)
Definition islets : row :=
  country "TUV" (MultiPolygon [rect 0 0 1 Num.f0_05; rect 5 5 1 Num.f0_01]).

(** A single polygon. *)
Definition square : row := country "LUX" (Polygon (rect 6 49 1 1)).

(** A row whose geometry is a line. *)
Definition line_row : row := country "AAA" (OtherGeometry LineString).

(** A distance stand-in for [geodesic]: the larger of the two coordinate
    differences in degrees, at 111 km per degree. *)
Definition grid_km (p q : Q * Q) : Q :=
  let a := Qabs (fst p - fst q) in
  let b := Qabs (snd p - snd q) in
  111 * (if Num.ltb a b then b else a).

(** The first vertex of the exterior ring, as a stand-in for the centroid. *)
Definition first_vertex (p : polygon) : coord :=
  match exterior p with
  | v :: _ => v
  | [] => (0, 0)
  end.

(** A stand-in for [str] on a coordinate with an integral value. *)
Definition str_int (q : Q) : string :=
  (if (Qnum q <? 0)%Z then "-" else "") +:+ Text.str_nat (Z.abs_nat (Qnum q / Zpos (Qden q)))
    +:+ ".0".

(** A row whose geometry is missing. *)
Definition no_geometry : row := country "ZZZ" (OtherGeometry Missing).

(** A second-level row: it carries the codes of levels 0, 1 and 2. *)
Definition county : row :=
  mkRow "USA" (Some "USA.1_1") (Some "USA.1.1_1") None None None (Some "County")
        (Polygon (rect (-88) 32 1 1)).

(** A country of the cleaned country table. *)
Definition usa : row := country "USA" (Polygon (rect (-100) 35 10 5)).

Definition empty_world : world := mkWorld ∅ [] [].

(** A world in which one extract is already there. *)
Definition done_world : world := mkWorld {[ "out/LUX.osm.pbf" := "pbf" ]} [] [].

(** A ring on Ellesmere Island, next to the reference point of the rule for
    Canada, and one near Toronto. *)
Definition arctic_ring : polygon := rect (-80) 83 1 1.
Definition toronto_ring : polygon := rect (-80) 43 1 1.

Definition canada : row := country "CAN" (MultiPolygon [arctic_ring; toronto_ring]).
Definition nunavut : row := region "CAN" "CAN.8_1" (MultiPolygon [arctic_ring; toronto_ring]).

(** A stand-in for [os.system]: a clipping tool that writes its output
    file [out]. *)
Definition fake_tool (out : string) (cmd : string) (fs : gmap string string)
  : gmap string string * result :=
  (<[out := "pbf"]> fs, Ok).

End Demo.

(** ** The rest of the program *)

(** *** global_shapefiles: the country table *)

Section Countries.

Variable area : geometry -> Q.
(** Lines 150-153: [pygeos.simplify] of [pygeos.buffer] of [pygeos.simplify]. *)
Variable simplify_buffer : geometry -> geometry.

(** Lines 132-159, the country branch: [gadm_level0] is the country layer of
    the catalog, each row paired with its [NAME_0] and its geometry converted
    with [pygeos.from_shapely]; the result is the table saved as the cleaned
    country file. Line 146 applies [remove_tiny_shapes] with its default
    [regionalized=False]; lines 150-153 pass a missing geometry on; line 158
    raises on a missing geometry. *)
Definition global_shapefiles_country (gadm_level0 : list (string * row))
  : outcome (list (string * row)) :=
  let kept := filter (fun nr => fst nr ∉ ["Antarctica"]) gadm_level0 in
  match progress_apply (fun nr => remove_tiny_shapes area (snd nr) false) kept with
  | Raises e => Raises e
  | Returns cleaned =>
      let simplified : list (option geometry) :=
        (fun g : option geometry => simplify_buffer <$> g) <$> cleaned in
      match traverse (fun g : option geometry =>
                        match g return outcome geometry with
                        | Some g' => Returns g'
                        | None => Raises TypeError
                        end) simplified with
      | Raises e => Raises e
      | Returns converted =>
          Returns (zip_with (fun nr g => (fst nr, set_geom g (snd nr))) kept converted)
      end
  end.

End Countries.

(** *** planet_osm and gadm36_download *)

Definition set_files (fs : gmap string string) (w : world) : world :=
  mkWorld fs (stdout w) (calls w).

(** [os.remove]: the file goes, or there was none to remove. *)
Definition os_remove (path : string) (w : world) : world * result :=
  if exists_path w path then (set_files (delete path (files w)) w, Ok)
  else (w, Raise OSError).

Section Downloads.

(** [urllib.request.urlretrieve url path]: what the download does to the
    files, and whether it raised. *)
Variable urlretrieve : string -> string -> gmap string string -> gmap string string * result.
(** Opening the archive at a path and extracting all of it into a
    directory. *)
Variable extractall : string -> string -> gmap string string -> gmap string string * result.

(** Lines 76-93. A name is in the listing of a directory when the file of
    that name is there; directories themselves are not modelled. *)
Definition planet_osm (data_path : string) (w : world) : world * result :=
  let osm_path_in := Text.path_join data_path "planet_osm" in
  if negb (exists_path w (Text.path_join osm_path_in "planet-latest.osm.pbf")) then
    let url := "https://planet.openstreetmap.org/pbf/planet-latest.osm.pbf" in
    let '(fs, r) :=
      urlretrieve url (Text.path_join osm_path_in "planet-latest.osm.pbf") (files w) in
    (set_files fs w, r)
  else (print "Planet file is already downloaded" w, Ok).

(** Lines 95-117. The first statement of the body replaces the argument. *)
Definition gadm36_download (data_path : string) (w : world) : world * result :=
  let data_path := Text.path_join ".." "data" in
  let gadm_path_in := Text.path_join data_path "GADM36" in
  if negb (exists_path w (Text.path_join gadm_path_in "gadm36_levels.gpkg")) then
    let url := "https://biogeo.ucdavis.edu/data/gadm3.6/gadm36_levels_gpkg.zip" in
    let archive := Text.path_join gadm_path_in "gadm36_levels_gpkg.zip" in
    match urlretrieve url archive (files w) with
    | (fs1, Raise e) => (set_files fs1 w, Raise e)
    | (fs1, Ok) =>
        match extractall archive gadm_path_in fs1 with
        | (fs2, Raise e) => (set_files fs2 w, Raise e)
        | (fs2, Ok) => os_remove archive (set_files fs2 w)
        end
    end
  else (print "GADM36 file is already downloaded" w, Ok).

End Downloads.

(** *** single_country and all_countries *)

(** The arguments of one call of a clip function. *)
Definition job : Type := string * string * string * string.

(** [zip] of four lists. *)
Fixpoint zip4 {A B C D} (la : list A) (lb : list B) (lc : list C) (ld : list D)
  : list (A * B * C * D) :=
  match la, lb, lc, ld with
  | a :: la', b :: lb', c :: lc', d :: ld' => (a, b, c, d) :: zip4 la' lb' lc' ld'
  | _, _, _, _ => []
  end.

(** [x.split('.')[0]] *)
Definition split_0 (x : string) : string := hd "" (Text.fields "."%char x).

(** [os.path.join] of three components. *)
Definition path_join3 (a b c : string) : string := Text.path_join (Text.path_join a b) c.

(** Lines 463, 518, 521, 536 and 540: the extract a boundary file is clipped
    into. *)
Definition area_pbf_of (data_path x : string) : string :=
  path_join3 data_path "region_osm_admin1" (split_0 x +:+ ".osm.pbf").

(** The parameters of [poly_files] (line 211). *)
Definition poly_files_parameters : list string :=
  ["data_path"; "global_shape"; "regionalized"].

Section Orchestration.

Variable centroid : polygon -> coord.
Variable geodesic_km : Q * Q -> Q * Q -> Q.
Variable str_float : Q -> string.
Variable os_system : string -> gmap string string -> gmap string string * result.
Variable planet_osm_repr : string.
(** [geopandas.read_file]: the table stored at a path. *)
Variable read_file : string -> list row.
(** [os.listdir]: the names in a directory, in the order the system gives
    them. *)
Variable listdir : string -> gmap string string -> list string.
(** [Pool(cpu_count()-1)] and its [starmap]: the clip function run on every
    job by the worker processes. *)
Variable pool_starmap :
  (string -> string -> string -> string -> world -> world) -> list job -> world
  -> world * result.

(** A call of [poly_files] with two positional arguments and the given
    keywords: a keyword that is not one of the remaining parameters raises
    before the body runs. *)
Definition call_poly_files (keywords : list string) (data_path global_shape : string)
    (regionalized : bool) (w : world) : world * result :=
  if forallb (fun k => bool_decide (k ∈ drop 2 poly_files_parameters)) keywords then
    let '(_, w', r) :=
      poly_files centroid geodesic_km str_float data_path (read_file global_shape)
                 regionalized w in
    (w', r)
  else (w, Raise TypeError).

Definition clip_function (osm_convert : bool)
  : string -> string -> string -> string -> world -> world :=
  if osm_convert then clip_osm_osmconvert os_system
  else clip_osm_osmosis os_system planet_osm_repr.

(** Lines 461-465: the jobs for the regions of a country, from the listing of
    the directory of regional boundary files. *)
Definition region_jobs (data_path ctry_pbf country : string) (listing : list string)
  : list job :=
  let get_poly_files := filter (fun x => Is_true (String.prefix country x)) listing in
  let polyPaths := path_join3 data_path "regional_poly_files" <$> get_poly_files in
  let area_pbfs := area_pbf_of data_path <$> get_poly_files in
  let data_paths := replicate (length polyPaths) data_path in
  let planet_paths := replicate (length polyPaths) ctry_pbf in
  zip4 data_paths planet_paths polyPaths area_pbfs.

(** Lines 389-472. *)
Definition single_country (country : string)
    (regionalized create_poly_files osm_convert : bool) (w : world) : world * result :=
  let data_path := Text.path_join ".." "data" in
  let planet_path := path_join3 data_path "planet_osm" "planet-latest.osm.pbf" in
  let world_path :=
    if regionalized then path_join3 data_path "input_data" "global_regions.gpkg"
    else path_join3 data_path "input_data" "global_countries.gpkg" in
  let '(w1, r1) :=
    if create_poly_files
    then call_poly_files ["save_shapefile"; "regionalized"] data_path world_path
                         regionalized w
    else (w, Ok) in
  match r1 with
  | Raise e => (w1, Raise e)
  | Ok =>
      let ctry_poly := path_join3 data_path "country_poly_files" (country +:+ ".poly") in
      let ctry_pbf := path_join3 data_path "country_osm" (country +:+ ".osm.pbf") in
      let w2 := clip_function osm_convert data_path planet_path ctry_poly ctry_pbf w1 in
      if regionalized then
        pool_starmap (clip_function osm_convert)
          (region_jobs data_path ctry_pbf country
             (listdir (Text.path_join data_path "regional_poly_files") (files w2)))
          w2
      else (w2, Ok)
  end.

(** Lines 506-549: the jobs for all countries, or for all regions. *)
Definition all_jobs (data_path planet_path : string) (subset : list string)
    (regionalized reversed_order : bool) (listing : list string) : list job :=
  let dir := if regionalized then "regional_poly_files" else "country_poly_files" in
  let chosen :=
    if bool_decide (0 < length subset)
    then filter (fun x => String.substring 0 3 x ∈ subset) listing
    else listing in
  let polyPaths := path_join3 data_path dir <$> chosen in
  let area_pbfs := area_pbf_of data_path <$> chosen in
  let big_osm_paths :=
    if regionalized
    then (fun x => path_join3 data_path "country_osm"
                              (String.substring 0 3 x +:+ ".osm.pbf")) <$> chosen
    else replicate (length polyPaths) planet_path in
  let data_paths := replicate (length polyPaths) data_path in
  if reversed_order
  then zip4 data_paths (reverse big_osm_paths) (reverse polyPaths) (reverse area_pbfs)
  else zip4 data_paths big_osm_paths polyPaths area_pbfs.

(** Lines 475-556. *)
Definition all_countries (subset : list string)
    (regionalized reversed_order osm_convert : bool) (w : world) : world * result :=
  let data_path := Text.path_join ".." "data" in
  let planet_path := path_join3 data_path "planet_osm" "planet-latest.osm.pbf" in
  let world_path :=
    if regionalized then path_join3 data_path "input_data" "global_regions.gpkg"
    else path_join3 data_path "input_data" "global_countries.gpkg" in
  match call_poly_files ["save_shapefile"; "regionalized"] data_path world_path
                        regionalized w with
  | (w1, Raise e) => (w1, Raise e)
  | (w1, Ok) =>
      let dir := if regionalized then "regional_poly_files" else "country_poly_files" in
      pool_starmap (clip_function osm_convert)
        (all_jobs data_path planet_path subset regionalized reversed_order
                  (listdir (Text.path_join data_path dir) (files w1)))
        w1
  end.

End Orchestration.

(** *** More sample data *)

Module Samples.

Local Open Scope Q_scope.

(** A stand-in for [urlretrieve]: the download stores a file at the path. *)
Definition fake_download (url path : string) (fs : gmap string string)
  : gmap string string * result :=
  (<[path := "data from " +:+ url]> fs, Ok).

(** A stand-in for the extraction: the archive holds the catalog. *)
Definition fake_extract (archive dir : string) (fs : gmap string string)
  : gmap string string * result :=
  (<[Text.path_join dir "gadm36_levels.gpkg" := "catalog"]> fs, Ok).

(** A stand-in for [os.system]: a tool that is not installed; the shell
    reports it and nothing is written. *)
Definition missing_tool (cmd : string) (fs : gmap string string)
  : gmap string string * result :=
  (fs, Ok).

(** A stand-in for [os.system] that raises. *)
Definition broken_shell (cmd : string) (fs : gmap string string)
  : gmap string string * result :=
  (fs, Raise OSError).

(** A country layer of three rows. *)
Definition layer0 : list (string * row) :=
  [("Luxembourg", Demo.square); ("Antarctica", Demo.country "ATA" (Polygon (Demo.rect 0 (-80) 10 5)));
   ("Canada", Demo.canada)].

(** The identity as a stand-in for the simplification. *)
Definition no_simplify (g : geometry) : geometry := g.

(** A row of the sentinel country and a water body. *)
Definition unassigned : row := Demo.country "-" (Polygon (Demo.rect 0 0 1 1)).
Definition lake : row :=
  mkRow "CAN" (Some "CAN.14_1") None None None None (Some "Water body")
        (Polygon (Demo.rect (-90) 48 1 1)).

(** A row whose geometry is a point, with a region code. *)
Definition point_region : row :=
  mkRow "LUX" (Some "LUX.9_1") None None None None (Some "Canton") (OtherGeometry Point).

(** A fourth ring, of planar area 249.75, and a country of the rings of
    areas 0.05, 0.2, 50 and 249.75: total planar area 300. *)
Definition ring_d : polygon := Demo.rect 100 0 999 (1 # 4).
Definition large_country : row :=
  Demo.country "BRA" (MultiPolygon [Demo.ring_a; Demo.ring_b; Demo.ring_c; ring_d]).

(** Chile as sixteen rings of planar area 0.01 each. *)
Definition speckled_chile : row :=
  Demo.country "CHL"
    (MultiPolygon ((fun k => Demo.rect (inject_Z (Z.of_nat k) * 2) 0 1 Num.f0_01)
                     <$> seq 0 16)).

(** A world in which the extract of Luxembourg is there. *)
Definition clipped_world : world :=
  mkWorld {[ "../data/country_osm/LUX.osm.pbf" := "pbf" ]} [] [].

(** Stand-ins for the table reader, the directory listing and the pool: no
    table, an empty directory, a pool that runs nothing. *)
Definition no_table (path : string) : list row := [].
Definition no_listing (dir : string) (fs : gmap string string) : list string := [].
Definition no_pool (clip : string -> string -> string -> string -> world -> world)
    (jobs : list job) (w : world) : world * result := (w, Ok).

End Samples.

(** * Properties *)

(** ** Numbers *)

Module NumFacts.

Lemma ltb_lt (a b : Q) : Num.ltb a b = true ↔ (a < b)%Q.
Proof. unfold Num.ltb, Qlt. apply Z.ltb_lt. Qed.

Lemma ltb_ge (a b : Q) : Num.ltb a b = false ↔ (b <= a)%Q.
Proof. unfold Num.ltb, Qle. apply Z.ltb_ge. Qed.

Lemma gtb_gt (a b : Q) : Is_true (Num.gtb a b) ↔ (b < a)%Q.
Proof. unfold Num.gtb. rewrite Is_true_true. apply ltb_lt. Qed.

Lemma gtb_le (a b : Q) : ¬ Is_true (Num.gtb a b) ↔ (a <= b)%Q.
Proof. unfold Num.gtb. rewrite Is_true_false. apply ltb_ge. Qed.

(** Comparisons do not see which fraction represents a number. *)
Lemma ltb_proper (a a' b b' : Q) :
  (a == a')%Q → (b == b')%Q → Num.ltb a b = Num.ltb a' b'.
Proof.
  intros Ha Hb. destruct (Num.ltb a' b') eqn:E.
  - apply ltb_lt. apply ltb_lt in E. by rewrite Ha, Hb.
  - apply ltb_ge. apply ltb_ge in E. by rewrite Ha, Hb.
Qed.

Local Ltac by_computation := apply Qle_bool_iff; vm_compute; reflexivity.

(** The literals are the decimals of the source, rounded to binary64. *)
Lemma f0_1_near : Num.near (1 # 10) Num.f0_1.
Proof. by_computation. Qed.
Lemma f0_01_near : Num.near (1 # 100) Num.f0_01.
Proof. by_computation. Qed.
Lemma f0_001_near : Num.near (1 # 1000) Num.f0_001.
Proof. by_computation. Qed.
Lemma f0_05_near : Num.near (5 # 100) Num.f0_05.
Proof. by_computation. Qed.
Lemma f0_2_near : Num.near (2 # 10) Num.f0_2.
Proof. by_computation. Qed.
Lemma f83_24_near : Num.near (8324 # 100) Num.f83_24.
Proof. by_computation. Qed.
Lemma f79_80_near : Num.near (7980 # 100) Num.f79_80.
Proof. by_computation. Qed.
Lemma f58_89_near : Num.near (5889 # 100) Num.f58_89.
Proof. by_computation. Qed.
Lemma f82_26_near : Num.near (8226 # 100) Num.f82_26.
Proof. by_computation. Qed.

End NumFacts.

(** ** remove_tiny_shapes *)

Section SimplifierFacts.

Variable area : geometry -> Q.

(** Membership in a list of literals, as a disjunction of equalities. *)
Local Ltac in_list := rewrite ?elem_of_cons, ?elem_of_nil in *; tauto.

(** The loop over the part indices visits the parts in order. *)
Lemma new_geom_loop (t : Q) (rest pre acc : list polygon) :
  foldl (fun acc index_ =>
           match get_geometry (MultiPolygon (pre ++ rest)) index_ with
           | Some part =>
               if Num.gtb (area (Polygon part)) t then acc ++ [part] else acc
           | None => acc
           end)
        acc (seq (length pre) (length rest))
  = acc ++ filter (fun p => Is_true (Num.gtb (area (Polygon p)) t)) rest.
Proof.
  revert pre acc. induction rest as [|p rest IH]; intros pre acc.
  - simpl. by rewrite app_nil_r.
  - cbn [length seq foldl get_geometry].
    rewrite list_lookup_middle by done.
    specialize (IH (pre ++ [p])).
    rewrite <- app_assoc, length_app in IH. cbn [length app] in IH.
    rewrite Nat.add_1_r in IH. rewrite IH.
    destruct (Num.gtb (area (Polygon p)) t) eqn:E.
    + rewrite filter_cons_True by (by rewrite E). by rewrite <- app_assoc.
    + rewrite filter_cons_False by (rewrite E; intros []). done.
Qed.

(** What the loop leaves: the parts above the threshold, in their order. *)
Lemma new_geom_filter (ps : list polygon) (t : Q) :
  new_geom area (MultiPolygon ps) t
  = filter (fun p => Is_true (Num.gtb (area (Polygon p)) t)) ps.
Proof. unfold new_geom. apply (new_geom_loop t ps [] []). Qed.

Lemma remove_tiny_shapes_polygon (x : row) (regionalized : bool) (p : polygon) :
  geom x = Polygon p → remove_tiny_shapes area x regionalized = Returns (Some (geom x)).
Proof. intros E. unfold remove_tiny_shapes. by rewrite E. Qed.

Lemma remove_tiny_shapes_small (x : row) (regionalized : bool) (ps : list polygon) :
  geom x = MultiPolygon ps →
  (area (geom x) < fst (area_bounds regionalized))%Q →
  remove_tiny_shapes area x regionalized = Returns (Some (geom x)).
Proof.
  intros E Hlt. unfold remove_tiny_shapes. rewrite E in *. cbn [get_type_id].
  apply NumFacts.ltb_lt in Hlt. by rewrite Hlt.
Qed.

Lemma remove_tiny_shapes_large (x : row) (regionalized : bool) (ps : list polygon) :
  geom x = MultiPolygon ps →
  (fst (area_bounds regionalized) <= area (geom x))%Q →
  remove_tiny_shapes area x regionalized
  = outcome_map Some
      (multipolygons
         (filter (fun p => Is_true (Num.gtb (area (Polygon p))
                                            (select_threshold area x regionalized))) ps)).
Proof.
  intros E Hge. unfold remove_tiny_shapes. rewrite E in *. cbn [get_type_id].
  apply NumFacts.ltb_ge in Hge. rewrite Hge.
  by rewrite new_geom_filter.
Qed.


Lemma multipolygons_none : multipolygons [] = Raises ValueError.
Proof. reflexivity. Qed.

(** The threshold when no country rule applies. *)
Lemma select_threshold_generic (x : row) (regionalized : bool) :
  GID_0 x ∉ ["CHL"; "IDN"; "RUS"; "GRL"; "CAN"; "USA"] →
  select_threshold area x regionalized
  = if Num.gtb (area (geom x)) (snd (area_bounds regionalized))
    then Num.f0_1 else Num.f0_001.
Proof.
  intros Hno. unfold select_threshold.
  rewrite !bool_decide_eq_false_2; [done | in_list | in_list].
Qed.

(** The threshold under a country rule. *)
Lemma select_threshold_override (x : row) (regionalized : bool) :
  GID_0 x ∈ ["CHL"; "IDN"; "RUS"; "GRL"; "CAN"; "USA"] →
  select_threshold area x regionalized = Num.f0_01.
Proof.
  intros Hin. unfold select_threshold.
  repeat case_bool_decide; try done; [by destruct regionalized | in_list].
Qed.

(** C1. For a multipolygon whose total area is not below the floor area1
    (0.1, or 0.01 when regionalized), the rings are filtered against the
    threshold [select_threshold], which is: 0.01 for CHL and IDN; 0.01 for
    RUS, GRL, CAN and USA, whatever [regionalized] is; otherwise 0.1 when
    the total area exceeds area2 (250, or 50 when regionalized); otherwise
    0.001. *)
Theorem threshold_decision_table (x : row) (regionalized : bool) (ps : list polygon) :
  geom x = MultiPolygon ps →
  ¬ (area (geom x) < (if regionalized then Num.f0_01 else Num.f0_1))%Q →
  let threshold := select_threshold area x regionalized in
  let area2 := (if regionalized then 50 else 250)%Q in
  area_bounds regionalized = ((if regionalized then Num.f0_01 else Num.f0_1), area2)
  ∧ remove_tiny_shapes area x regionalized
    = outcome_map Some (multipolygons (new_geom area (geom x) threshold))
  ∧ (GID_0 x ∈ ["CHL"; "IDN"] → threshold = Num.f0_01)
  ∧ (GID_0 x ∈ ["RUS"; "GRL"; "CAN"; "USA"] → threshold = Num.f0_01)
  ∧ (GID_0 x ∉ ["CHL"; "IDN"; "RUS"; "GRL"; "CAN"; "USA"] →
     (area2 < area (geom x))%Q → threshold = Num.f0_1)
  ∧ (GID_0 x ∉ ["CHL"; "IDN"; "RUS"; "GRL"; "CAN"; "USA"] →
     ¬ (area2 < area (geom x))%Q → threshold = Num.f0_001).
Proof.
  intros E Hfloor threshold area2. subst threshold area2.
  split; [by destruct regionalized|].
  split.
  { unfold remove_tiny_shapes. rewrite E. cbn [get_type_id].
    rewrite E in Hfloor.
    destruct (Num.ltb (area (MultiPolygon ps)) (fst (area_bounds regionalized))) eqn:F;
      [|done].
    exfalso. apply Hfloor. apply NumFacts.ltb_lt in F. by destruct regionalized. }
  split; [intros H; apply select_threshold_override; in_list|].
  split; [intros H; apply select_threshold_override; in_list|].
  split; intros Hno Harea; rewrite (select_threshold_generic _ _ Hno).
  - assert (Num.gtb (area (geom x)) (snd (area_bounds regionalized)) = true) as ->; [|done].
    apply NumFacts.ltb_lt. by destruct regionalized.
  - assert (Num.gtb (area (geom x)) (snd (area_bounds regionalized)) = false) as ->; [|done].
    apply NumFacts.ltb_ge. apply Qnot_lt_le. by destruct regionalized.
Qed.


(** C3. [remove_tiny_shapes] returns the geometry as it is when it is a
    single polygon, and when it is a multipolygon whose total area is below
    the floor area1 (0.1, or 0.01 when regionalized). *)
Theorem remove_tiny_shapes_identity (x : row) (regionalized : bool) :
  (∃ p, geom x = Polygon p)
  ∨ (∃ ps, geom x = MultiPolygon ps
           ∧ (area (geom x) < (if regionalized then Num.f0_01 else Num.f0_1))%Q) →
  remove_tiny_shapes area x regionalized = Returns (Some (geom x)).
Proof.
  intros [[p E] | [ps [E Hlt]]].
  - by eapply remove_tiny_shapes_polygon.
  - eapply remove_tiny_shapes_small; [done|]. by destruct regionalized.
Qed.

End SimplifierFacts.

(** The decision table on a country of total planar area 300: no country
    rule, total above area2 = 250, hence threshold 0.1. *)
Lemma threshold_decision_table_witness :
  geom Samples.large_country
  = MultiPolygon [Demo.ring_a; Demo.ring_b; Demo.ring_c; Samples.ring_d]
  ∧ ¬ (Demo.planar_area (geom Samples.large_country) < Num.f0_1)%Q
  ∧ select_threshold Demo.planar_area Samples.large_country false = Num.f0_1.
Proof.
  assert (Hfloor : ¬ (Demo.planar_area (geom Samples.large_country) < Num.f0_1)%Q).
  { intros H. vm_compute in H. discriminate H. }
  split; [reflexivity|]. split; [exact Hfloor|].
  destruct (threshold_decision_table Demo.planar_area Samples.large_country false
              [Demo.ring_a; Demo.ring_b; Demo.ring_c; Samples.ring_d] eq_refl Hfloor)
    as (_ & _ & _ & _ & Hbig & _).
  apply Hbig.
  - apply (bool_decide_unpack _). vm_compute. exact I.
  - vm_compute. reflexivity.
Defined.



(** A single polygon, and an archipelago of total area 0.06, come back as
    they are. *)
Lemma remove_tiny_shapes_identity_witness :
  remove_tiny_shapes Demo.planar_area Demo.square false = Returns (Some (geom Demo.square))
  ∧ (Demo.planar_area (geom Demo.islets) < Num.f0_1)%Q
  ∧ remove_tiny_shapes Demo.planar_area Demo.islets false = Returns (Some (geom Demo.islets)).
Proof.
  assert (Hsmall : (Demo.planar_area (geom Demo.islets) < Num.f0_1)%Q).
  { vm_compute. reflexivity. }
  split; [|split; [exact Hsmall|]].
  - apply remove_tiny_shapes_identity. left. eexists. reflexivity.
  - apply remove_tiny_shapes_identity. right. eexists. split; [reflexivity | exact Hsmall].
Defined.

(** ** Text *)

Module TextFacts.

Lemma append_nil_l (b : string) : "" +:+ b = b.
Proof. reflexivity. Qed.

Lemma append_cons (x : ascii) (a b : string) : String x a +:+ b = String x (a +:+ b).
Proof. reflexivity. Qed.

Lemma append_assoc (a b c : string) : (a +:+ b) +:+ c = a +:+ b +:+ c.
Proof.
  induction a as [|x a IH]; [done|].
  rewrite !append_cons. by f_equal.
Qed.

Lemma append_nil_r (a : string) : a +:+ "" = a.
Proof.
  induction a as [|x a IH]; [done|].
  rewrite append_cons. by f_equal.
Qed.

Lemma cat_cons (s : string) (l : list string) : Text.cat (s :: l) = s +:+ Text.cat l.
Proof. reflexivity. Qed.

Lemma cat_app (l k : list string) : Text.cat (l ++ k) = Text.cat l +:+ Text.cat k.
Proof.
  induction l as [|s l IH]; [done|].
  rewrite <- app_comm_cons, !cat_cons, IH. by rewrite append_assoc.
Qed.

Lemma occurs_app (c : ascii) (a b : string) :
  Text.occurs c (a +:+ b) = Text.occurs c a || Text.occurs c b.
Proof.
  induction a as [|x a IH]; [done|].
  rewrite append_cons. cbn [Text.occurs]. rewrite IH. by destruct (bool_decide (x = c)).
Qed.

(** A piece free of the separator, followed by the separator, is the first
    field. *)
Lemma fields_sep (sep : ascii) (a rest : string) :
  Text.occurs sep a = false →
  Text.fields sep (a +:+ String sep rest) = a :: Text.fields sep rest.
Proof.
  induction a as [|x a IH]; intros H.
  - rewrite append_nil_l. cbn [Text.fields]. by rewrite bool_decide_eq_true_2.
  - cbn [Text.occurs] in H. apply orb_false_iff in H as [Hx Ha].
    rewrite append_cons. cbn [Text.fields]. rewrite Hx. by rewrite IH.
Qed.

Lemma fields_empty (sep : ascii) (rest : string) :
  Text.fields sep (String sep rest) = "" :: Text.fields sep rest.
Proof. apply (fields_sep sep ""). done. Qed.

Lemma fields_last (sep : ascii) (a : string) :
  Text.occurs sep a = false → Text.fields sep a = [a].
Proof.
  induction a as [|x a IH]; intros H; [done|].
  cbn [Text.occurs] in H. apply orb_false_iff in H as [Hx Ha].
  cbn [Text.fields]. rewrite Hx. by rewrite IH.
Qed.

Lemma lines_line (l rest : string) :
  Text.occurs Text.nl_char l = false →
  Text.lines (l +:+ Text.nl +:+ rest) = l :: Text.lines rest.
Proof. intros H. unfold Text.lines, Text.nl. rewrite append_cons, append_nil_l. by apply fields_sep. Qed.

Lemma is_token_inv (s : string) :
  Text.is_token s = true →
  s ≠ "" ∧ Text.occurs " "%char s = false ∧ Text.occurs Text.nl_char s = false.
Proof.
  unfold Text.is_token. rewrite !andb_true_iff, !negb_true_iff.
  intros [[H1 H2] H3]. by apply bool_decide_eq_false in H1.
Qed.

(** The two columns of a vertex line. *)
Lemma columns_vertex (x y : string) :
  Text.is_token x = true → Text.is_token y = true →
  Text.columns ("    " +:+ x +:+ "     " +:+ y) = [x; y].
Proof.
  intros (Hx & Hxs & _)%is_token_inv (Hy & Hys & _)%is_token_inv.
  unfold Text.columns.
  rewrite !append_cons, !append_nil_l.
  rewrite !fields_empty, (fields_sep " " x) by done.
  rewrite !fields_empty, (fields_last " " y) by done.
  repeat (rewrite filter_cons_False by (intros H; by apply H)).
  rewrite filter_cons_True by done.
  repeat (rewrite filter_cons_False by (intros H; by apply H)).
  by rewrite filter_cons_True by done.
Qed.

Lemma all_digits_no (c : ascii) (d : Decimal.uint) :
  (forall k, k < 10 → c ≠ ascii_of_nat (48 + k)) →
  Text.occurs c (NilEmpty.string_of_uint d) = false.
Proof.
  intros Hc.
  induction d; cbn [NilEmpty.string_of_uint Text.occurs]; [done|..];
    rewrite IHd, orb_false_r; apply bool_decide_eq_false_2; intros <-.
  - apply (Hc 0); [lia | reflexivity].
  - apply (Hc 1); [lia | reflexivity].
  - apply (Hc 2); [lia | reflexivity].
  - apply (Hc 3); [lia | reflexivity].
  - apply (Hc 4); [lia | reflexivity].
  - apply (Hc 5); [lia | reflexivity].
  - apply (Hc 6); [lia | reflexivity].
  - apply (Hc 7); [lia | reflexivity].
  - apply (Hc 8); [lia | reflexivity].
  - apply (Hc 9); [lia | reflexivity].
Qed.

Lemma str_nat_no_nl (n : nat) : Text.occurs Text.nl_char (Text.str_nat n) = false.
Proof.
  apply all_digits_no. intros k Hk.
  do 10 (destruct k as [|k]; [done|]). lia.
Qed.

Lemma str_nat_not_END (n : nat) : Text.str_nat n ≠ "END".
Proof.
  intros H.
  assert (Text.occurs "E"%char (Text.str_nat n) = false) as Hno.
  { apply all_digits_no. intros k Hk.
    do 10 (destruct k as [|k]; [done|]). lia. }
  by rewrite H in Hno.
Qed.
End TextFacts.

(** ** poly_files *)

Section WriterFacts.

Variable centroid : polygon -> coord.
Variable geodesic_km : Q * Q -> Q * Q -> Q.
Variable str_float : Q -> string.

Local Abbreviation skip_ring := (skip_ring centroid geodesic_km).
Local Abbreviation ring_step := (ring_step centroid geodesic_km str_float).
Local Abbreviation emitted := (emitted centroid geodesic_km).
Local Abbreviation printed := (printed centroid geodesic_km).
Local Abbreviation ring_block := (ring_block str_float).
Local Abbreviation poly_text := (poly_text str_float).
Local Abbreviation poly_row := (poly_row centroid geodesic_km str_float).
Local Abbreviation poly_rows := (poly_rows centroid geodesic_km str_float).
Local Abbreviation poly_files := (poly_files centroid geodesic_km str_float).

(** Writing to the file just written appends to it. *)
Lemma write_inserted (path c s : string) (fs : gmap string string)
    (out k : list string) :
  write path s (mkWorld (<[path := c]> fs) out k)
  = mkWorld (<[path := c +:+ s]> fs) out k.
Proof.
  unfold write. cbn [files stdout calls].
  by rewrite lookup_insert_eq, insert_insert_eq.
Qed.

(** Lines 314-316: the vertex lines of a ring, appended in order. *)
Lemma vertex_loop (path : string) (vs : list coord) (c : string)
    (fs : gmap string string) (out k : list string) :
  foldl (fun w' ring => write path (vertex_line str_float ring) w')
        (mkWorld (<[path := c]> fs) out k) vs
  = mkWorld (<[path := c +:+ Text.cat (vertex_line str_float <$> vs)]> fs) out k.
Proof.
  revert c. induction vs as [|v vs IH]; intros c.
  - cbn [foldl fmap list_fmap Text.cat foldr]. by rewrite TextFacts.append_nil_r.
  - cbn [foldl]. rewrite write_inserted, IH.
    by rewrite fmap_cons, TextFacts.cat_cons, TextFacts.append_assoc.
Qed.

Lemma skip_ring_cases (ctry attr : string) (p : polygon) :
  skip_ring ctry attr p = (false, None)
  ∨ skip_ring ctry attr p = (true, None)
  ∨ skip_ring ctry attr p = (true, Some attr).
Proof.
  unfold skip_ring.
  repeat match goal with |- context [if ?b then _ else _] => destruct b end; auto.
Qed.

Lemma emitted_keep (ctry attr : string) (p : polygon) (ps : list polygon) :
  skip_ring ctry attr p = (false, None) →
  emitted ctry attr (p :: ps) = p :: emitted ctry attr ps
  ∧ printed ctry attr (p :: ps) = printed ctry attr ps.
Proof.
  intros E. unfold emitted, printed.
  rewrite filter_cons_True by (by rewrite E). cbn [omap list_omap]. by rewrite E.
Qed.

Lemma emitted_drop (ctry attr : string) (p : polygon) (ps : list polygon)
    (line : option string) :
  skip_ring ctry attr p = (true, line) →
  emitted ctry attr (p :: ps) = emitted ctry attr ps
  ∧ printed ctry attr (p :: ps) = option_list line ++ printed ctry attr ps.
Proof.
  intros E. unfold emitted, printed.
  rewrite filter_cons_False by (by rewrite E). cbn [omap list_omap]. rewrite E.
  by destruct line.
Qed.

(** Lines 296-320: a ring that is written takes the next index and appends
    its block; a ring that is left out changes neither. *)
Lemma ring_loop (ctry attr path : string) (ps : list polygon) (i : nat) (c : string)
    (fs : gmap string string) (out k : list string) :
  foldl (ring_step ctry attr path) (i, mkWorld (<[path := c]> fs) out k) ps
  = (i + length (emitted ctry attr ps),
     mkWorld (<[path := c +:+ Text.cat (zip_with ring_block
                                          (seq i (length (emitted ctry attr ps)))
                                          (emitted ctry attr ps))]> fs)
             (out ++ printed ctry attr ps) k).
Proof.
  revert i c out. induction ps as [|p ps IH]; intros i c out.
  - cbn. by rewrite Nat.add_0_r, TextFacts.append_nil_r, app_nil_r.
  - cbn [foldl]. unfold ring_step at 2.
    destruct (skip_ring_cases ctry attr p) as [E | [E | E]]; rewrite E.
    + destruct (emitted_keep _ _ _ ps E) as [-> ->].
      rewrite !write_inserted, vertex_loop, write_inserted, IH.
      cbn [length seq zip_with]. rewrite TextFacts.cat_cons.
      unfold ring_block at 2.
      rewrite !TextFacts.append_assoc. f_equal. lia.
    + destruct (emitted_drop _ _ _ ps _ E) as [-> ->]. by rewrite IH.
    + destruct (emitted_drop _ _ _ ps _ E) as [-> ->].
      unfold print. cbn [files stdout calls]. rewrite IH.
      cbn [option_list]. by rewrite <- app_assoc.
Qed.

(** A row whose code and ring list are there writes its artifact. *)
Lemma poly_row_ok (regionalized : bool) (poly_dir : string) (v : loop_vars) (w : world)
    (f : row) (attr : string) (ps : list polygon) :
  attr_of regionalized f = Some attr →
  rebind_polygons (geom f) (polygons v) = Some ps →
  geom f ≠ OtherGeometry Missing →
  poly_row regionalized poly_dir (v, w) f
  = (mkVars (S (num v)) (Some ps),
     mkWorld (<[poly_path poly_dir attr := poly_text attr (emitted (GID_0 f) attr ps)]> (files w))
             (stdout w ++ printed (GID_0 f) attr ps) (calls w),
     Ok).
Proof.
  intros Hattr Hps Hgeom. unfold poly_row.
  destruct (geom_type (geom f)) as [ty|] eqn:Hty.
  2: { destruct (geom f) as [| |[]]; done. }
  rewrite Hattr. cbn [polygons]. rewrite Hps.
  unfold open_w. rewrite write_inserted, TextFacts.append_nil_l.
  rewrite ring_loop. rewrite write_inserted.
  unfold poly_text. by rewrite !TextFacts.append_assoc.
Qed.


(** *** Reading an artifact back *)

Lemma printable_cons (p : polygon) (rings : list polygon) :
  printable str_float (p :: rings) = true →
  printable str_float [p] = true ∧ printable str_float rings = true.
Proof.
  unfold printable. cbn [forallb]. rewrite !andb_true_iff. tauto.
Qed.

Lemma printable_vertex (v : coord) (vs : list coord) (i : list (list coord)) :
  printable str_float [mkPolygon (v :: vs) i] = true →
  Text.is_token (str_float (fst v)) = true
  ∧ Text.is_token (str_float (snd v)) = true
  ∧ printable str_float [mkPolygon vs i] = true.
Proof.
  unfold printable. cbn [forallb exterior]. rewrite !andb_true_iff. tauto.
Qed.

(** A vertex line is one line of the text, and its columns are the two
    coordinates. *)
Lemma vertex_line_read (v : coord) (rest : string) :
  Text.is_token (str_float (fst v)) = true →
  Text.is_token (str_float (snd v)) = true →
  ∃ l, Text.lines (vertex_line str_float v +:+ rest) = l :: Text.lines rest
       ∧ l ≠ "END"
       ∧ Text.columns l = [str_float (fst v); str_float (snd v)].
Proof.
  intros Hx Hy.
  exists ("    " +:+ str_float (fst v) +:+ "     " +:+ str_float (snd v)).
  split; [|split].
  - unfold vertex_line.
    replace (("    " +:+ str_float v.1 +:+ "     " +:+ str_float v.2 +:+ Text.nl) +:+ rest)
      with (("    " +:+ str_float v.1 +:+ "     " +:+ str_float v.2) +:+ Text.nl +:+ rest)
      by (by rewrite !TextFacts.append_assoc).
    apply TextFacts.lines_line.
    apply TextFacts.is_token_inv in Hx as (_ & _ & Hx).
    apply TextFacts.is_token_inv in Hy as (_ & _ & Hy).
    rewrite !TextFacts.occurs_app, Hx, Hy. done.
  - rewrite TextFacts.append_cons. discriminate.
  - by apply TextFacts.columns_vertex.
Qed.

(** Inside a ring: the vertex lines up to [END] are read in order. *)
Lemma parse_vertices (vs : list coord) (i : list (list coord)) (index : string)
    (cur : list (string * string)) (acc : list PolyFormat.ring_text) (rest : string) :
  printable str_float [mkPolygon vs i] = true →
  PolyFormat.parse_rings
    (Text.lines (Text.cat (vertex_line str_float <$> vs) +:+ "END" +:+ Text.nl +:+ rest))
    (Some (index, cur)) acc
  = PolyFormat.parse_rings (Text.lines rest) None
      ((index, rev cur ++ (vertex_text str_float <$> vs)) :: acc).
Proof.
  revert cur. induction vs as [|v vs IH]; intros cur Hp.
  - cbn [fmap list_fmap Text.cat foldr]. rewrite TextFacts.append_nil_l.
    rewrite TextFacts.lines_line by done.
    cbn [PolyFormat.parse_rings]. rewrite bool_decide_eq_true_2 by done.
    by rewrite app_nil_r.
  - apply printable_vertex in Hp as (Hx & Hy & Hp).
    rewrite fmap_cons, TextFacts.cat_cons, TextFacts.append_assoc.
    destruct (vertex_line_read v
                (Text.cat (vertex_line str_float <$> vs) +:+ "END" +:+ Text.nl +:+ rest)
                Hx Hy) as (l & -> & Hl & Hcols).
    cbn [PolyFormat.parse_rings]. rewrite bool_decide_eq_false_2 by done.
    rewrite Hcols, IH by done.
    cbn [rev]. by rewrite <- app_assoc.
Qed.

(** The rings of an artifact text are read back with their index lines and
    their columns. *)
Lemma parse_blocks (rings : list polygon) (i : nat) (acc : list PolyFormat.ring_text) :
  printable str_float rings = true →
  PolyFormat.parse_rings
    (Text.lines (Text.cat (zip_with ring_block (seq i (length rings)) rings)
                   +:+ "END" +:+ Text.nl))
    None acc
  = Some (rev acc
            ++ zip_with (fun j p => (Text.str_nat j, vertex_text str_float <$> exterior p))
                        (seq i (length rings)) rings).
Proof.
  revert i acc. induction rings as [|p rings IH]; intros i acc Hp.
  - cbn [length seq zip_with Text.cat foldr]. rewrite TextFacts.append_nil_l.
    replace ("END" +:+ Text.nl) with ("END" +:+ Text.nl +:+ "") by done.
    rewrite TextFacts.lines_line by done.
    cbn [PolyFormat.parse_rings]. rewrite bool_decide_eq_true_2 by done.
    by rewrite app_nil_r.
  - apply printable_cons in Hp as [Hp Hrest].
    cbn [length seq zip_with]. rewrite TextFacts.cat_cons.
    unfold ring_block at 1. rewrite !TextFacts.append_assoc.
    rewrite TextFacts.lines_line by apply TextFacts.str_nat_no_nl.
    cbn [PolyFormat.parse_rings].
    rewrite bool_decide_eq_false_2 by apply TextFacts.str_nat_not_END.
    destruct p as [vs holes]. cbn [exterior].
    rewrite (parse_vertices vs holes) by done.
    rewrite IH by done. cbn [rev app]. by rewrite <- app_assoc.
Qed.

(** Reading back the text of an artifact. *)
Lemma parse_poly_text (attr : string) (rings : list polygon) :
  Text.occurs Text.nl_char attr = false →
  printable str_float rings = true →
  PolyFormat.parse_poly (poly_text attr rings)
  = Some (attr,
          zip_with (fun j p => (Text.str_nat j, vertex_text str_float <$> exterior p))
                   (seq 0 (length rings)) rings).
Proof.
  intros Hattr Hp. unfold PolyFormat.parse_poly, poly_text.
  rewrite TextFacts.lines_line by done.
  by rewrite parse_blocks.
Qed.

(** *** The rows *)

(** A row is processed without an exception exactly when its geometry is
    there, its code is there and [polygons] is bound. *)
Lemma poly_row_Ok_inv (regionalized : bool) (poly_dir : string) (v v' : loop_vars)
    (w w' : world) (f : row) :
  poly_row regionalized poly_dir (v, w) f = (v', w', Ok) →
  ∃ attr ps, attr_of regionalized f = Some attr
             ∧ rebind_polygons (geom f) (polygons v) = Some ps
             ∧ geom f ≠ OtherGeometry Missing.
Proof.
  unfold poly_row.
  destruct (geom_type (geom f)) eqn:Hty; [|discriminate].
  destruct (attr_of regionalized f) as [attr|]; [|discriminate].
  cbn [polygons].
  destruct (rebind_polygons (geom f) (polygons v)) as [ps|]; [|discriminate].
  intros _. exists attr, ps. repeat split. intros E. by rewrite E in Hty.
Qed.

(** An exception ends the loop over the rows where it is raised. *)
Lemma poly_rows_raise (regionalized : bool) (poly_dir : string)
    (pre post : list row) (st0 st st' : loop_vars * world) (f : row) (e : exn) :
  poly_rows regionalized poly_dir st0 pre = (st, Ok) →
  poly_row regionalized poly_dir st f = (st', Raise e) →
  poly_rows regionalized poly_dir st0 (pre ++ f :: post) = (st', Raise e).
Proof.
  revert st0. induction pre as [|g pre IH]; intros st0 Hpre Hf.
  - cbn in Hpre. injection Hpre as ->. cbn [app poly_rows]. by rewrite Hf.
  - cbn [app poly_rows] in *.
    destruct (poly_row regionalized poly_dir st0 g) as [st1 [|e1]]; [|discriminate].
    by apply IH.
Qed.

Lemma zip_with_fst {A B C D} (g : A → C) (h : B → D) (l : list A) (k : list B) :
  length l = length k →
  fst <$> zip_with (fun a b => (g a, h b)) l k = g <$> l.
Proof.
  revert k. induction l as [|a l IH]; intros [|b k] Hlen; try done.
  cbn. f_equal. apply IH. by injection Hlen.
Qed.

Lemma zip_with_snd {A B C D} (g : A → C) (h : B → D) (l : list A) (k : list B) :
  length l = length k →
  snd <$> zip_with (fun a b => (g a, h b)) l k = h <$> k.
Proof.
  revert k. induction l as [|a l IH]; intros [|b k] Hlen; try done.
  cbn. f_equal. apply IH. by injection Hlen.
Qed.

(** *** The exclusion rule *)

(** Lines 298-307: a ring is left out exactly under the rule for Canada or
    the rule for Russia. *)
Lemma skip_ring_rule (ctry attr : string) (p : polygon) :
  fst (skip_ring ctry attr p) = true
  ↔ (ctry = "CAN"
     ∧ (geodesic_km (reversed (centroid p)) (Num.f83_24, - Num.f79_80) < 2000)%Q)
    ∨ (ctry = "RUS"
       ∧ (geodesic_km (reversed (centroid p)) (Num.f58_89, Num.f82_26) < 500)%Q).
Proof.
  unfold skip_ring. rewrite <- !NumFacts.ltb_lt.
  destruct (Num.ltb (geodesic_km (reversed (centroid p)) (Num.f83_24, (- Num.f79_80)%Q)) 2000);
    destruct (Num.ltb (geodesic_km (reversed (centroid p)) (Num.f58_89, Num.f82_26)) 500);
    repeat case_bool_decide; cbn; try subst ctry; intuition congruence.
Qed.

Lemma filter_all {A} (P : A → Prop) `{!∀ x, Decision (P x)} (l : list A) :
  (∀ x, P x) → filter P l = l.
Proof.
  intros HP. induction l as [|x l IH]; [done|].
  rewrite filter_cons_True by done. by f_equal.
Qed.

(** C4, as the code has it. The rule is keyed on the country code of the row
    ([GID_0]) and applies to every artifact of that country, at country level
    and at region level alike: for CAN a ring whose centroid is less than
    2000 km from (83.24 N, 79.80 W) is left out and a ring at 2000 km or more
    is written; for RUS the same holds with (58.89 N, 82.26 E) and 500 km; for
    every other country code all rings are written. *)
Theorem ring_exclusion_rule (regionalized : bool) (poly_dir : string) (v : loop_vars)
    (w : world) (f : row) (attr : string) (ps : list polygon) :
  attr_of regionalized f = Some attr →
  rebind_polygons (geom f) (polygons v) = Some ps →
  geom f ≠ OtherGeometry Missing →
  let to_CAN p := geodesic_km (reversed (centroid p)) (Num.f83_24, - Num.f79_80)%Q in
  let to_RUS p := geodesic_km (reversed (centroid p)) (Num.f58_89, Num.f82_26) in
  ∃ rings v' w',
    poly_row regionalized poly_dir (v, w) f = (v', w', Ok)
    ∧ files w' !! poly_path poly_dir attr = Some (poly_text attr rings)
    ∧ rings = filter (fun p => ¬ ((GID_0 f = "CAN" ∧ (to_CAN p < 2000)%Q)
                                  ∨ (GID_0 f = "RUS" ∧ (to_RUS p < 500)%Q))) ps
    ∧ (∀ p, p ∈ ps → GID_0 f = "CAN" → (to_CAN p < 2000)%Q → p ∉ rings)
    ∧ (∀ p, p ∈ ps → GID_0 f = "CAN" → (2000 <= to_CAN p)%Q → p ∈ rings)
    ∧ (∀ p, p ∈ ps → GID_0 f = "RUS" → (to_RUS p < 500)%Q → p ∉ rings)
    ∧ (∀ p, p ∈ ps → GID_0 f = "RUS" → (500 <= to_RUS p)%Q → p ∈ rings)
    ∧ (GID_0 f ≠ "CAN" → GID_0 f ≠ "RUS" → rings = ps).
Proof.
  intros Hattr Hps Hgeom to_CAN to_RUS.
  assert (Hrule : emitted (GID_0 f) attr ps
    = filter (fun p => ¬ ((GID_0 f = "CAN" ∧ (to_CAN p < 2000)%Q)
                          ∨ (GID_0 f = "RUS" ∧ (to_RUS p < 500)%Q))) ps).
  { unfold emitted. apply list_filter_iff. intros p. subst to_CAN to_RUS. cbn beta.
    rewrite <- (skip_ring_rule (GID_0 f) attr p).
    destruct (skip_ring (GID_0 f) attr p) as [[|] ?]; cbn [fst]; split; try done. }
  eexists _, _, _. split; [by apply poly_row_ok|].
  cbn [files]. rewrite lookup_insert_eq, Hrule.
  split; [done|]. split; [done|].
  repeat split.
  - intros p Hin HC Hd (Hno & _)%list_elem_of_filter. apply Hno. by left.
  - intros p Hin HC Hd. apply list_elem_of_filter. split; [|done].
    intros [[_ Hlt] | [HR _]]; [by apply (Qlt_not_le _ _ Hlt) | congruence].
  - intros p Hin HR Hd (Hno & _)%list_elem_of_filter. apply Hno. by right.
  - intros p Hin HR Hd. apply list_elem_of_filter. split; [|done].
    intros [[HC _] | [_ Hlt]]; [congruence | by apply (Qlt_not_le _ _ Hlt)].
  - intros HC HR. apply filter_all. tauto.
Qed.

(** *** The name of the artifact *)

(** C6, as the code has it. The identifying code of a row is [GID_0] when
    not regionalized and [GID_1], the code of level 1, when regionalized (the
    writer knows no other level); the artifact is the file
    [poly_dir/code.poly], whatever the loop variables (the position of the row
    in the iteration) are, and no other file changes. *)
Theorem artifact_named_by_code (regionalized : bool) (poly_dir : string)
    (v v' : loop_vars) (w w' : world) (f : row) :
  poly_row regionalized poly_dir (v, w) f = (v', w', Ok) →
  ∃ code text,
    (if regionalized then GID_1 f = Some code else code = GID_0 f)
    ∧ files w' = <[poly_dir +:+ "/" +:+ code +:+ ".poly" := text]> (files w)
    ∧ ∀ position w0, ∃ u' w0',
        poly_row regionalized poly_dir (mkVars position (polygons v), w0) f = (u', w0', Ok)
        ∧ files w0' = <[poly_dir +:+ "/" +:+ code +:+ ".poly" := text]> (files w0).
Proof.
  intros Hok.
  destruct (poly_row_Ok_inv _ _ _ _ _ _ _ Hok) as (attr & ps & Hattr & Hps & Hgeom).
  rewrite (poly_row_ok _ _ _ _ _ _ _ Hattr Hps Hgeom) in Hok.
  injection Hok as <- <-.
  exists attr, (poly_text attr (emitted (GID_0 f) attr ps)).
  split; [|split].
  - unfold attr_of in Hattr. destruct regionalized; [done | by injection Hattr].
  - done.
  - intros position w0. eexists _, _.
    by rewrite (poly_row_ok _ _ (mkVars position (polygons v)) _ _ _ _ Hattr Hps Hgeom).
Qed.

(** *** Round trip *)

(** C7. The text of an artifact that was written reads back, with the reader
    of the format, as the label and the rings that were written: the vertex
    sequences in their order, each coordinate as the text [str] gave for it,
    and the index lines 0, 1, ... *)
Theorem artifact_round_trip (regionalized : bool) (poly_dir : string)
    (v : loop_vars) (w : world) (f : row) (attr : string) (ps : list polygon) :
  attr_of regionalized f = Some attr →
  rebind_polygons (geom f) (polygons v) = Some ps →
  geom f ≠ OtherGeometry Missing →
  Text.occurs Text.nl_char attr = false →
  printable str_float (emitted (GID_0 f) attr ps) = true →
  ∃ v' w' text rings_read,
    poly_row regionalized poly_dir (v, w) f = (v', w', Ok)
    ∧ files w' !! poly_path poly_dir attr = Some text
    ∧ PolyFormat.parse_poly text = Some (attr, rings_read)
    ∧ snd <$> rings_read
      = (fun p => vertex_text str_float <$> exterior p) <$> emitted (GID_0 f) attr ps
    ∧ fst <$> rings_read
      = Text.str_nat <$> seq 0 (length (emitted (GID_0 f) attr ps)).
Proof.
  intros Hattr Hps Hgeom Hnl Hprint.
  eexists _, _, _, _. split; [by apply poly_row_ok|].
  cbn [files]. rewrite lookup_insert_eq.
  split; [done|]. split; [by apply parse_poly_text|].
  split.
  - apply (zip_with_snd Text.str_nat (fun p => vertex_text str_float <$> exterior p)).
    by rewrite length_seq.
  - apply (zip_with_fst Text.str_nat (fun p => vertex_text str_float <$> exterior p)).
    by rewrite length_seq.
Qed.

(** *** Ring indices *)

(** C10. In the artifact of a row the index lines are 0, 1, ..., n-1, where
    n is the number of rings written: a ring that is left out takes no
    index. When every ring is left out the file is there all the same, with
    the code line and the final [END] line only. *)
Theorem ring_indices_consecutive (regionalized : bool) (poly_dir : string)
    (v : loop_vars) (w : world) (f : row) (attr : string) (ps : list polygon) :
  attr_of regionalized f = Some attr →
  rebind_polygons (geom f) (polygons v) = Some ps →
  geom f ≠ OtherGeometry Missing →
  let written := filter (fun p => fst (skip_ring (GID_0 f) attr p) = false) ps in
  let n := length written in
  ∃ v' w',
    poly_row regionalized poly_dir (v, w) f = (v', w', Ok)
    ∧ files w' !! poly_path poly_dir attr
      = Some (attr +:+ Text.nl
                +:+ Text.cat
                      (zip_with
                         (fun i p =>
                            Text.str_nat i +:+ Text.nl
                              +:+ Text.cat (vertex_line str_float <$> exterior p)
                              +:+ "END" +:+ Text.nl)
                         (seq 0 n) written)
                +:+ "END" +:+ Text.nl)
    ∧ (Forall (fun p => fst (skip_ring (GID_0 f) attr p) = true) ps →
       files w' !! poly_path poly_dir attr = Some (attr +:+ Text.nl +:+ "END" +:+ Text.nl)).
Proof.
  intros Hattr Hps Hgeom written n.
  eexists _, _. split; [by apply poly_row_ok|].
  cbn [files]. rewrite lookup_insert_eq. split; [done|].
  intros Hall. unfold poly_text.
  assert (emitted (GID_0 f) attr ps = []) as ->; [|done].
  unfold emitted. clear Hps. induction Hall as [|p ps' Hp _ IH]; [done|].
  rewrite filter_cons_False by (by rewrite Hp). done.
Qed.

End WriterFacts.

(** ** The writer on sample rows *)

(** The region Nunavut of Canada: the ring next to the reference point is
    left out of the region-level artifact [CAN.8_1.poly], the ring near
    Toronto is written. *)
Lemma ring_exclusion_rule_witness :
  attr_of true Demo.nunavut = Some "CAN.8_1"
  ∧ rebind_polygons (geom Demo.nunavut) None = Some [Demo.arctic_ring; Demo.toronto_ring]
  ∧ geom Demo.nunavut ≠ OtherGeometry Missing
  ∧ ∃ rings v' w',
      poly_row Demo.first_vertex Demo.grid_km Demo.str_int true "data/regional_poly_files"
               (mkVars 0 None, Demo.empty_world) Demo.nunavut = (v', w', Ok)
      ∧ files w' !! "data/regional_poly_files/CAN.8_1.poly"
        = Some (poly_text Demo.str_int "CAN.8_1" rings)
      ∧ (Demo.arctic_ring ∉ rings)
      ∧ (Demo.toronto_ring ∈ rings).
Proof.
  assert (Hgeom : geom Demo.nunavut ≠ OtherGeometry Missing) by discriminate.
  split; [reflexivity|]. split; [reflexivity|]. split; [exact Hgeom|].
  destruct (ring_exclusion_rule Demo.first_vertex Demo.grid_km Demo.str_int true
              "data/regional_poly_files" (mkVars 0 None) Demo.empty_world Demo.nunavut
              "CAN.8_1" [Demo.arctic_ring; Demo.toronto_ring] eq_refl eq_refl Hgeom)
    as (rings & v' & w' & Hrow & Hfile & _ & Hnear & Hfar & _).
  exists rings, v', w'. split; [exact Hrow|]. split; [exact Hfile|]. split.
  - apply Hnear; [constructor | reflexivity | vm_compute; reflexivity].
  - apply Hfar; [constructor; constructor | reflexivity |].
    intros H. vm_compute in H. discriminate H.
Defined.

(** C4 as stated fails: the rule is applied to a region-level artifact. With
    [regionalized] true, the artifact of the region [CAN.8_1] holds the ring
    near Toronto only; the ring 27 km from the reference point is not in
    it. *)
Lemma region_artifact_drops_ring :
  let '(_, w', r) :=
    poly_files Demo.first_vertex Demo.grid_km Demo.str_int "data" [Demo.nunavut] true
               Demo.empty_world in
  r = Ok
  ∧ geom Demo.nunavut = MultiPolygon [Demo.arctic_ring; Demo.toronto_ring]
  ∧ files w' !! "data/regional_poly_files/CAN.8_1.poly"
    = Some (poly_text Demo.str_int "CAN.8_1" [Demo.toronto_ring])
  ∧ files w' !! "data/regional_poly_files/CAN.8_1.poly"
    ≠ Some (poly_text Demo.str_int "CAN.8_1" [Demo.arctic_ring; Demo.toronto_ring]).
Proof.
  vm_compute. repeat split. discriminate.
Qed.

(** A country row: the artifact is [LUX.poly]. *)
Lemma artifact_named_by_code_witness :
  ∃ v' w',
    poly_row Demo.first_vertex Demo.grid_km Demo.str_int false "data/country_poly_files"
             (mkVars 0 None, Demo.empty_world) Demo.square = (v', w', Ok)
    ∧ ∃ text,
        files w' = <["data/country_poly_files/LUX.poly" := text]> (files Demo.empty_world).
Proof.
  eexists _, _. split; [reflexivity|].
  destruct (artifact_named_by_code Demo.first_vertex Demo.grid_km Demo.str_int false
              "data/country_poly_files" (mkVars 0 None) _ Demo.empty_world _ Demo.square
              eq_refl)
    as (code & text & -> & Hfiles & _).
  exists text. exact Hfiles.
Defined.

(** C6 as stated fails for a requested level other than 1: for a row of
    level 2 the code used is that of level 1, and so is the file name. *)
Lemma regional_code_is_level_1 :
  let '(_, w', r) :=
    poly_files Demo.first_vertex Demo.grid_km Demo.str_int "data" [Demo.county] true
               Demo.empty_world in
  r = Ok
  ∧ GID 2 Demo.county = Some "USA.1.1_1"
  ∧ attr_of true Demo.county = Some "USA.1_1"
  ∧ attr_of true Demo.county ≠ GID 2 Demo.county
  ∧ is_Some (files w' !! "data/regional_poly_files/USA.1_1.poly")
  ∧ files w' !! "data/regional_poly_files/USA.1.1_1.poly" = None.
Proof.
  vm_compute. repeat split; [discriminate | by eexists].
Qed.

(** The artifact of Canada, read back: one ring, the one near Toronto, with
    its five vertices in order. *)
Lemma artifact_round_trip_witness :
  attr_of false Demo.canada = Some "CAN"
  ∧ Text.occurs Text.nl_char "CAN" = false
  ∧ printable Demo.str_int
      (emitted Demo.first_vertex Demo.grid_km "CAN" "CAN"
               [Demo.arctic_ring; Demo.toronto_ring]) = true
  ∧ ∃ v' w' text rings_read,
      poly_row Demo.first_vertex Demo.grid_km Demo.str_int false "data/country_poly_files"
               (mkVars 0 None, Demo.empty_world) Demo.canada = (v', w', Ok)
      ∧ files w' !! "data/country_poly_files/CAN.poly" = Some text
      ∧ PolyFormat.parse_poly text = Some ("CAN", rings_read)
      ∧ snd <$> rings_read
        = [[("-80.0", "43.0"); ("-79.0", "43.0"); ("-79.0", "44.0"); ("-80.0", "44.0");
            ("-80.0", "43.0")]].
Proof.
  assert (Hgeom : geom Demo.canada ≠ OtherGeometry Missing) by discriminate.
  split; [reflexivity|]. split; [reflexivity|]. split; [reflexivity|].
  destruct (artifact_round_trip Demo.first_vertex Demo.grid_km Demo.str_int false
              "data/country_poly_files" (mkVars 0 None) Demo.empty_world Demo.canada
              "CAN" [Demo.arctic_ring; Demo.toronto_ring]
              eq_refl eq_refl Hgeom eq_refl eq_refl)
    as (v' & w' & text & rings_read & Hrow & Hfile & Hparse & Hvertices & _).
  exists v', w', text, rings_read.
  split; [exact Hrow|]. split; [exact Hfile|]. split; [exact Hparse|].
  rewrite Hvertices. reflexivity.
Defined.

(** The same row after a good row raises nothing: [polygons] still holds the
    rings of the row before, and they are written under the code of this
    row. *)
Example line_row_reuses_rings :
  let '(_, w', r) :=
    poly_files Demo.first_vertex Demo.grid_km Demo.str_int "data"
               [Demo.square; Demo.line_row] false Demo.empty_world in
  r = Ok
  ∧ files w' !! "data/country_poly_files/AAA.poly"
    = Some (poly_text Demo.str_int "AAA" [Demo.rect 6 49 1 1]).
Proof.
  vm_compute. repeat split.
Qed.

(** For a geometry that is neither a polygon nor a multipolygon,
    [remove_tiny_shapes] raises nothing: it returns [None]. *)
Example remove_tiny_shapes_other (area : geometry -> Q) (x : row) (regionalized : bool)
    (k : other_kind) :
  geom x = OtherGeometry k → remove_tiny_shapes area x regionalized = Returns None.
Proof.
  intros E. unfold remove_tiny_shapes. rewrite E. by destruct k.
Qed.

(** The artifact of Canada: the ring left out takes no index, the ring
    written has index 0. *)
Lemma ring_indices_consecutive_witness :
  attr_of false Demo.canada = Some "CAN"
  ∧ rebind_polygons (geom Demo.canada) None = Some [Demo.arctic_ring; Demo.toronto_ring]
  ∧ ∃ v' w',
      poly_row Demo.first_vertex Demo.grid_km Demo.str_int false "data/country_poly_files"
               (mkVars 0 None, Demo.empty_world) Demo.canada = (v', w', Ok)
      ∧ files w' !! "data/country_poly_files/CAN.poly"
        = Some ("CAN" +:+ Text.nl
                  +:+ "0" +:+ Text.nl
                  +:+ Text.cat (vertex_line Demo.str_int <$> exterior Demo.toronto_ring)
                  +:+ "END" +:+ Text.nl
                  +:+ "END" +:+ Text.nl).
Proof.
  assert (Hgeom : geom Demo.canada ≠ OtherGeometry Missing) by discriminate.
  split; [reflexivity|]. split; [reflexivity|].
  destruct (ring_indices_consecutive Demo.first_vertex Demo.grid_km Demo.str_int false
              "data/country_poly_files" (mkVars 0 None) Demo.empty_world Demo.canada
              "CAN" [Demo.arctic_ring; Demo.toronto_ring] eq_refl eq_refl Hgeom)
    as (v' & w' & Hrow & Hfile & _).
  exists v', w'. split; [exact Hrow|].
  revert Hfile. vm_compute. intros Hfile. exact Hfile.
Defined.

(** ** global_shapefiles: countries without sub-regions *)

Module RegionFacts.

Import Regions.

Lemma fill_region_code_GID_0 (level : nat) (f : row) :
  GID_0 (fill_region_code level f) = GID_0 f.
Proof. by destruct level as [|[|[|[|[|[|?]]]]]]. Qed.

Lemma fill_region_code_geom (level : nat) (f : row) :
  geom (fill_region_code level f) = geom f.
Proof. by destruct level as [|[|[|[|[|[|?]]]]]]. Qed.

(** Lines 189-198: at level L the code is the country code, L times [.0],
    then [_1]. *)
Lemma fill_region_code_GID (level : nat) (f : row) :
  1 ≤ level ≤ 5 →
  GID level (fill_region_code level f)
  = Some (GID_0 f +:+ repeat_str level ".0" +:+ "_1").
Proof.
  intros Hlevel.
  destruct level as [|[|[|[|[|[|?]]]]]]; try lia; cbn [fill_region_code GID];
    unfold set_GID_1, set_GID_2, set_GID_3, set_GID_4, set_GID_5;
    cbn [GID_0 GID_1 GID_2 GID_3 GID_4 GID_5]; f_equal.
Qed.

(** The rows of one country among the substitutes. *)
Lemma filter_substitutes (level : nat) (c : string) (M : gset string) (l : list row) :
  (∀ g, g ∈ l → GID_0 g = c → GID_0 g ∈ M) →
  filter (fun g => GID_0 g = c) (fill_region_code level <$> filter (fun g => GID_0 g ∈ M) l)
  = fill_region_code level <$> filter (fun g => GID_0 g = c) l.
Proof.
  induction l as [|g l IH]; intros HM; [done|].
  assert (IH' := IH (fun g' Hin => HM g' (list_elem_of_further _ _ _ Hin))).
  destruct (decide (GID_0 g = c)) as [Hc | Hc].
  - rewrite (filter_cons_True (fun g => GID_0 g ∈ M)) by (apply HM; [left | done]).
    rewrite (filter_cons_True (fun g => GID_0 g = c) g l) by done.
    rewrite !fmap_cons.
    rewrite filter_cons_True by (by rewrite fill_region_code_GID_0).
    by rewrite IH'.
  - rewrite (filter_cons_False (fun g => GID_0 g = c) g l) by done.
    destruct (decide (GID_0 g ∈ M)) as [HgM | HgM].
    + rewrite (filter_cons_True (fun g => GID_0 g ∈ M)) by done.
      rewrite fmap_cons.
      rewrite filter_cons_False by (by rewrite fill_region_code_GID_0).
      done.
    + by rewrite (filter_cons_False (fun g => GID_0 g ∈ M)) by done.
Qed.

Lemma filter_none {A} (P : A → Prop) `{!∀ x, Decision (P x)} (l : list A) :
  (∀ x, x ∈ l → ¬ P x) → filter P l = [].
Proof.
  induction l as [|x l IH]; intros Hno; [done|].
  rewrite filter_cons_False by (apply Hno; left).
  apply IH. intros y Hy. apply Hno. by right.
Qed.

(** The fragment of lines 184-202 taken by itself. For a country [c] with
    no row in the region table at a level L (1 to 5), the rows of [c] after
    the fragment are the rows of [c] in the country table, each with its
    geometry kept and with the code of level L set: the country code, L
    times [.0], then [_1]. *)
Lemma substitute_region (level : nat) (c : string)
    (gadm_level0 gadm_level_x : list row) :
  1 ≤ level ≤ 5 →
  (∀ g, g ∈ gadm_level_x → GID_0 g ≠ c) →
  filter (fun g => GID_0 g = c) (add_missing_countries level gadm_level0 gadm_level_x)
  = fill_region_code level <$> filter (fun g => GID_0 g = c) gadm_level0
  ∧ ∀ f, filter (fun g => GID_0 g = c) gadm_level0 = [f] →
      ∃ f', filter (fun g => GID_0 g = c)
                   (add_missing_countries level gadm_level0 gadm_level_x) = [f']
            ∧ geom f' = geom f
            ∧ GID_0 f' = c
            ∧ GID level f' = Some (c +:+ repeat_str level ".0" +:+ "_1").
Proof.
  intros Hlevel Hnone.
  assert (Hall :
    filter (fun g => GID_0 g = c) (add_missing_countries level gadm_level0 gadm_level_x)
    = fill_region_code level <$> filter (fun g => GID_0 g = c) gadm_level0).
  { unfold add_missing_countries, mis_country.
    rewrite filter_app, (filter_none _ gadm_level_x) by (intros g Hg; by apply Hnone).
    cbn [app]. apply filter_substitutes.
    intros g Hg Hc. unfold get_missing_countries.
    apply elem_of_difference. split.
    - apply elem_of_list_to_set, list_elem_of_fmap. by exists g.
    - intros (g' & Hg' & Hin)%elem_of_list_to_set%list_elem_of_fmap.
      apply (Hnone g' Hin). congruence. }
  split; [exact Hall|].
  intros f Hf. exists (fill_region_code level f).
  assert (GID_0 f = c) as Hc.
  { assert (f ∈ filter (fun g => GID_0 g = c) gadm_level0) as Hin by (rewrite Hf; left).
    by apply list_elem_of_filter in Hin as [? _]. }
  rewrite Hall, Hf. split; [done|].
  split; [apply fill_region_code_geom|].
  split; [by rewrite fill_region_code_GID_0|].
  rewrite <- Hc. by apply fill_region_code_GID.
Qed.

End RegionFacts.

(** C5. The code falls short of the claim: a regional run with the country
    file there never gets to the synthesis of lines 184-201. Whatever the
    level and the country table, on a region layer with a row line 175
    raises TypeError: nothing is returned, printed or saved. So for the
    country table of the United States and Canada and a layer that holds
    one region of Canada, no substitute row is made for the United States,
    which have no row in the layer. *)
Theorem regional_run_raises_before_synthesis (level : nat) (gadm_level0 : list row)
    (f : row) (layer : list row) (w : world) :
  Regions.global_shapefiles_regional level (Some gadm_level0) (f :: layer) w
  = (Raises TypeError, w)
  ∧ Regions.global_shapefiles_regional 1 (Some [Demo.usa; Demo.canada]) [Demo.nunavut]
                                       Demo.empty_world
    = (Raises TypeError, Demo.empty_world).
Proof. split; reflexivity. Qed.

(** ** clip_osm_osmconvert and clip_osm_osmosis *)

Section ClipFacts.

Variable os_system : string -> gmap string string -> gmap string string * result.
Variable planet_osm_repr : string.

(** Lines 351 and 382: with the destination there, [os.system] is not
    called; the two lines are printed. *)
Lemma clip_with_existing (cmd area_pbf : string) (w : world) :
  is_Some (files w !! area_pbf) →
  clip_with os_system cmd area_pbf w
  = mkWorld (files w)
            (stdout w ++ [area_pbf +:+ " started!"; area_pbf +:+ " finished!"])
            (calls w).
Proof.
  intros Hthere. unfold clip_with, exists_path, print. cbn [files stdout calls].
  rewrite bool_decide_eq_true_2 by done. cbn [negb]. by rewrite <- app_assoc.
Qed.

(** With the destination absent, the command is run once. *)
Lemma clip_with_absent (cmd area_pbf : string) (w : world) :
  files w !! area_pbf = None →
  calls (clip_with os_system cmd area_pbf w) = calls w ++ [cmd].
Proof.
  intros Habsent. unfold clip_with, exists_path, print, system. cbn [files stdout calls].
  rewrite bool_decide_eq_false_2 by (rewrite Habsent; by intros [? ?]). cbn [negb].
  by destruct (os_system cmd (files w)) as [fs [|e]].
Qed.

(** C9. With the destination already there, each of the two clip functions
    runs no command, takes the normal path (it prints [finished!], not
    [did not finish!]) and leaves every file as it is; so does a second run
    after the first. *)
Theorem clip_existing_destination_noop
    (data_path planet_path area_poly area_pbf : string) (w : world) :
  is_Some (files w !! area_pbf) →
  let said := [area_pbf +:+ " started!"; area_pbf +:+ " finished!"] in
  let convert := clip_osm_osmconvert os_system data_path planet_path area_poly area_pbf in
  let osmosis :=
    clip_osm_osmosis os_system planet_osm_repr data_path planet_path area_poly area_pbf in
  (files (convert w) = files w ∧ calls (convert w) = calls w
   ∧ stdout (convert w) = stdout w ++ said)
  ∧ (files (osmosis w) = files w ∧ calls (osmosis w) = calls w
     ∧ stdout (osmosis w) = stdout w ++ said)
  ∧ (files (convert (convert w)) = files w ∧ calls (convert (convert w)) = calls w
     ∧ stdout (convert (convert w)) = stdout w ++ said ++ said)
  ∧ (files (osmosis (osmosis w)) = files w ∧ calls (osmosis (osmosis w)) = calls w
     ∧ stdout (osmosis (osmosis w)) = stdout w ++ said ++ said).
Proof.
  intros Hthere said convert osmosis. subst convert osmosis.
  unfold clip_osm_osmconvert, clip_osm_osmosis.
  rewrite !(clip_with_existing _ area_pbf w) by done.
  rewrite !clip_with_existing by done.
  cbn [files stdout calls]. by rewrite <- app_assoc.
Qed.

(** A first run that left its destination behind is not followed by a second
    invocation. *)
Lemma clip_second_run (data_path planet_path area_poly area_pbf : string) (w : world) :
  let convert := clip_osm_osmconvert os_system data_path planet_path area_poly area_pbf in
  is_Some (files (convert w) !! area_pbf) →
  calls (convert (convert w)) = calls (convert w)
  ∧ files (convert (convert w)) = files (convert w).
Proof.
  intros convert Hthere. subst convert. unfold clip_osm_osmconvert in *.
  by rewrite (clip_with_existing _ area_pbf (clip_with _ _ _ _)) by done.
Qed.

End ClipFacts.

(** An extract that is already there: no command is run. *)
Lemma clip_existing_destination_noop_witness :
  is_Some (files Demo.done_world !! "out/LUX.osm.pbf")
  ∧ calls (clip_osm_osmconvert (Demo.fake_tool "out/LUX.osm.pbf") "data" "planet.osm.pbf"
             "data/country_poly_files/LUX.poly" "out/LUX.osm.pbf" Demo.done_world) = []
  ∧ files (clip_osm_osmconvert (Demo.fake_tool "out/LUX.osm.pbf") "data" "planet.osm.pbf"
             "data/country_poly_files/LUX.poly" "out/LUX.osm.pbf" Demo.done_world)
    = files Demo.done_world.
Proof.
  assert (Hthere : is_Some (files Demo.done_world !! "out/LUX.osm.pbf"))
    by (exists "pbf"; reflexivity).
  split; [exact Hthere|].
  destruct (clip_existing_destination_noop (Demo.fake_tool "out/LUX.osm.pbf")
              "<function planet_osm>" "data" "planet.osm.pbf"
              "data/country_poly_files/LUX.poly" "out/LUX.osm.pbf" Demo.done_world Hthere)
    as [(Hfiles & Hcalls & _) _].
  split; [exact Hcalls | exact Hfiles].
Defined.

(** A first run on an empty world runs the tool once; the second run runs
    nothing. *)
Example clip_twice :
  let convert :=
    clip_osm_osmconvert (Demo.fake_tool "out/LUX.osm.pbf") "data" "planet.osm.pbf"
      "data/country_poly_files/LUX.poly" "out/LUX.osm.pbf" in
  length (calls (convert Demo.empty_world)) = 1
  ∧ calls (convert (convert Demo.empty_world)) = calls (convert Demo.empty_world).
Proof.
  vm_compute. by split.
Qed.

(** * More properties *)

(** ** remove_tiny_shapes *)

Section SimplifierMore.

Variable area : geometry -> Q.

(** X1. Whatever [remove_tiny_shapes] returns is the geometry itself or, for
    a multipolygon, a multipolygon of some of its rings in their order: no
    ring is added, changed or moved, and a polygon never becomes a
    multipolygon. *)
Theorem remove_tiny_shapes_sublist (x : row) (regionalized : bool) (g : geometry) :
  remove_tiny_shapes area x regionalized = Returns (Some g) →
  g = geom x
  ∨ ∃ ps kept, geom x = MultiPolygon ps ∧ g = MultiPolygon kept ∧ kept `sublist_of` ps.
Proof.
  intros Hres. destruct (geom x) as [p | ps | k] eqn:E.
  - left. rewrite (remove_tiny_shapes_polygon area x regionalized p E) in Hres.
    rewrite E in Hres. by injection Hres.
  - destruct (Qlt_le_dec (area (geom x)) (fst (area_bounds regionalized))) as [Hlt | Hge].
    + left. rewrite (remove_tiny_shapes_small area x regionalized ps E Hlt) in Hres.
      rewrite E in Hres. by injection Hres.
    + right. rewrite (remove_tiny_shapes_large area x regionalized ps E Hge) in Hres.
      destruct (filter _ ps) as [|q kept] eqn:F; [discriminate Hres|].
      injection Hres as <-. exists ps, (q :: kept). split; [done|]. split; [done|].
      rewrite <- F. apply sublist_filter.
  - unfold remove_tiny_shapes in Hres. rewrite E in Hres. by destruct k.
Qed.

(** X2. [remove_tiny_shapes] returns [None], without raising, exactly for a
    geometry that is neither a polygon nor a multipolygon. *)
Theorem remove_tiny_shapes_none_iff (x : row) (regionalized : bool) :
  remove_tiny_shapes area x regionalized = Returns None ↔ ∃ k, geom x = OtherGeometry k.
Proof.
  split.
  - intros Hnone. destruct (geom x) as [p | ps | k] eqn:E; [| |by exists k].
    + by rewrite (remove_tiny_shapes_polygon area x regionalized p E) in Hnone.
    + unfold remove_tiny_shapes in Hnone. rewrite E in Hnone. cbn [get_type_id] in Hnone.
      destruct (Num.ltb _ _) in Hnone; [done|].
      by destruct (multipolygons _) in Hnone.
  - intros [k E]. unfold remove_tiny_shapes. rewrite E. by destruct k.
Qed.

(** X3. For the countries with a rule of their own (CHL, IDN, RUS, GRL, CAN,
    USA) and a total area of at least 0.1, [regionalized] makes no
    difference to the result. *)
Theorem remove_tiny_shapes_rule_ignores_mode (x : row) :
  GID_0 x ∈ ["CHL"; "IDN"; "RUS"; "GRL"; "CAN"; "USA"] →
  (Num.f0_1 <= area (geom x))%Q →
  remove_tiny_shapes area x true = remove_tiny_shapes area x false.
Proof.
  intros Hrule Hbig. destruct (geom x) as [p | ps | k] eqn:E.
  - by rewrite !(remove_tiny_shapes_polygon area x _ p E).
  - rewrite <- E in Hbig.
    rewrite !(remove_tiny_shapes_large area x _ ps E).
    + by rewrite !select_threshold_override.
    + done.
    + cbn. eapply Qle_trans; [|exact Hbig]. by apply Qle_bool_iff.
  - unfold remove_tiny_shapes. rewrite E. by destruct k.
Qed.

(** X24. When no ring of a multipolygon whose total area is at or above the
    floor is above the threshold, [remove_tiny_shapes] raises ValueError at
    line 74: it gives no empty multipolygon. *)
Theorem remove_tiny_shapes_all_dropped (x : row) (regionalized : bool) (ps : list polygon) :
  geom x = MultiPolygon ps →
  (fst (area_bounds regionalized) <= area (geom x))%Q →
  (∀ p, p ∈ ps → (area (Polygon p) <= select_threshold area x regionalized)%Q) →
  remove_tiny_shapes area x regionalized = Raises ValueError.
Proof.
  intros E Hge Hall. rewrite (remove_tiny_shapes_large area x regionalized ps E Hge).
  rewrite RegionFacts.filter_none; [done|].
  intros p Hp Habove%NumFacts.gtb_gt. apply (Qlt_not_le _ _ Habove). by apply Hall.
Qed.

End SimplifierMore.

(** Canada, of planar area 2, comes out the same in both modes. *)
Lemma remove_tiny_shapes_rule_ignores_mode_witness :
  (Num.f0_1 <= Demo.planar_area (geom Demo.canada))%Q
  ∧ remove_tiny_shapes Demo.planar_area Demo.canada true
    = remove_tiny_shapes Demo.planar_area Demo.canada false.
Proof.
  assert (Hbig : (Num.f0_1 <= Demo.planar_area (geom Demo.canada))%Q).
  { intros H. vm_compute in H. discriminate H. }
  split; [exact Hbig|].
  apply remove_tiny_shapes_rule_ignores_mode; [|exact Hbig].
  apply (bool_decide_unpack _). vm_compute. exact I.
Defined.

(** Chile as sixteen rings of area 0.01, total 0.16: no ring is above the
    threshold 0.01. *)
Lemma remove_tiny_shapes_all_dropped_witness :
  (Num.f0_1 <= Demo.planar_area (geom Samples.speckled_chile))%Q
  ∧ select_threshold Demo.planar_area Samples.speckled_chile false = Num.f0_01
  ∧ remove_tiny_shapes Demo.planar_area Samples.speckled_chile false = Raises ValueError.
Proof.
  assert (Hfloor : (Num.f0_1 <= Demo.planar_area (geom Samples.speckled_chile))%Q).
  { intros H. vm_compute in H. discriminate H. }
  split; [exact Hfloor|]. split; [reflexivity|].
  eapply remove_tiny_shapes_all_dropped; [reflexivity | exact Hfloor |].
  intros p Hp. revert p Hp. apply Forall_forall.
  apply (bool_decide_unpack _). vm_compute. exact I.
Defined.

(** A country of total planar area 300: what comes back is a multipolygon of
    rings of the input. *)
Lemma remove_tiny_shapes_sublist_witness :
  remove_tiny_shapes Demo.planar_area Samples.large_country false
  = Returns (Some (MultiPolygon [Demo.ring_b; Demo.ring_c; Samples.ring_d]))
  ∧ (MultiPolygon [Demo.ring_b; Demo.ring_c; Samples.ring_d] = geom Samples.large_country
     ∨ ∃ ps kept, geom Samples.large_country = MultiPolygon ps
                  ∧ MultiPolygon [Demo.ring_b; Demo.ring_c; Samples.ring_d]
                    = MultiPolygon kept
                  ∧ kept `sublist_of` ps).
Proof.
  assert (Hres : remove_tiny_shapes Demo.planar_area Samples.large_country false
                 = Returns (Some (MultiPolygon [Demo.ring_b; Demo.ring_c; Samples.ring_d])))
    by (vm_compute; reflexivity).
  split; [exact Hres|].
  exact (remove_tiny_shapes_sublist Demo.planar_area Samples.large_country false _ Hres).
Defined.

(** ** global_shapefiles *)

Lemma traverse_Returns {A B} (f : A → outcome B) (l : list A) (k : list B) :
  traverse f l = Returns k → Forall2 (fun a b => f a = Returns b) l k.
Proof.
  revert k. induction l as [|a l IH]; intros k H.
  - injection H as <-. constructor.
  - cbn [traverse] in H. destruct (f a) as [b|e] eqn:Ha; [|discriminate].
    destruct (traverse f l) as [k'|e]; [|discriminate].
    injection H as <-. constructor; [done|]. by apply IH.
Qed.

Lemma progress_apply_Returns {A B} (f : A → outcome B) (l : list A) (k : list B) :
  progress_apply f l = Returns k → l ≠ [] ∧ Forall2 (fun a b => f a = Returns b) l k.
Proof.
  destruct l as [|a l]; [discriminate|]. intros H. split; [done|].
  by apply traverse_Returns.
Qed.

Lemma traverse_Raises {A B} (f : A → outcome B) (pre post : list A) (a : A) (e : exn) :
  (∀ x, x ∈ pre → ∃ b, f x = Returns b) → f a = Raises e →
  traverse f (pre ++ a :: post) = Raises e.
Proof.
  intros Hpre Ha. induction pre as [|x pre IH]; cbn [app traverse].
  - by rewrite Ha.
  - destruct (Hpre x) as [b ->]; [left|].
    rewrite IH; [done|]. intros y Hy. apply Hpre. by right.
Qed.

Section ShapefilesMore.

Variable area : geometry -> Q.
Variable simplify_buffer : geometry -> geometry.


Local Abbreviation not_antarctica :=
  (filter (fun nr : string * row => fst nr ≠ "Antarctica")).

(** The rows of a table that the country branch returns. *)
Lemma country_branch_rows (gadm_level0 : list (string * row)) (table : list (string * row)) :
  global_shapefiles_country area simplify_buffer gadm_level0 = Returns table →
  not_antarctica gadm_level0 ≠ []
  ∧ Forall2 (fun nr0 nr =>
               ∃ g, remove_tiny_shapes area (snd nr0) false = Returns (Some g)
                    ∧ nr = (fst nr0, set_geom (simplify_buffer g) (snd nr0)))
            (not_antarctica gadm_level0) table.
Proof.
  unfold global_shapefiles_country.
  assert (Hkept : filter (fun nr : string * row => fst nr ∉ ["Antarctica"]) gadm_level0
                  = not_antarctica gadm_level0).
  { apply list_filter_iff. intros nr. by rewrite list_elem_of_singleton. }
  rewrite Hkept. clear Hkept.
  set (kept := not_antarctica gadm_level0).
  destruct (progress_apply _ kept) as [cleaned|e] eqn:Hclean; [|discriminate].
  apply progress_apply_Returns in Hclean as [Hne Hclean].
  destruct (traverse _ _) as [converted|e] eqn:Hconv; [|discriminate].
  apply traverse_Returns in Hconv. intros [= <-]. split; [done|].
  clear Hne. revert cleaned converted Hclean Hconv.
  induction kept as [|nr0 kept' IH]; intros cleaned converted Hclean Hconv.
  - inversion Hclean; subst. inversion Hconv; subst. constructor.
  - inversion Hclean as [|? og ? cleaned' Hog Hclean']; subst.
    rewrite fmap_cons in Hconv.
    inversion Hconv as [|? g ? converted' Hg Hconv']; subst.
    cbn [zip_with]. constructor; [|by eapply IH].
    destruct og as [g0|]; [|discriminate Hg]. cbn in Hg. injection Hg as <-.
    by exists g0.
Qed.

(** X9. When the country branch returns a table, that table has the rows of
    the country layer that are not named Antarctica, in order, each with its
    name and its codes, and there is at least one; for each of them
    [remove_tiny_shapes], in its default mode, returned a geometry, and the
    row carries the simplification of that geometry. *)
Theorem country_table_rows (gadm_level0 : list (string * row))
    (table : list (string * row)) :
  global_shapefiles_country area simplify_buffer gadm_level0 = Returns table →
  table ≠ []
  ∧ (∀ nr, nr ∈ table → fst nr ≠ "Antarctica")
  ∧ (fun nr => (fst nr, GID_0 (snd nr))) <$> table
    = (fun nr => (fst nr, GID_0 (snd nr)))
        <$> filter (fun nr => fst nr ≠ "Antarctica") gadm_level0
  ∧ Forall2 (fun nr0 nr =>
               ∃ g, remove_tiny_shapes area (snd nr0) false = Returns (Some g)
                    ∧ nr = (fst nr0, set_geom (simplify_buffer g) (snd nr0)))
            (filter (fun nr => fst nr ≠ "Antarctica") gadm_level0) table.
Proof.
  intros [Hne Hrows]%country_branch_rows.
  assert (Hnames : ∀ nr, nr ∈ not_antarctica gadm_level0 → fst nr ≠ "Antarctica").
  { intros nr Hin. by apply list_elem_of_filter in Hin as [? _]. }
  split; [|split; [|split; [|exact Hrows]]].
  - intros Hnil. rewrite Hnil in Hrows. apply Forall2_nil_inv_r in Hrows. done.
  - intros nr [i Hi]%list_elem_of_lookup.
    destruct (Forall2_lookup_r _ _ _ _ _ Hrows Hi) as (nr0 & Hi0 & g & _ & ->).
    cbn [fst]. apply Hnames. by eapply list_elem_of_lookup_2.
  - apply list_eq_Forall2, Forall2_fmap, Forall2_flip.
    eapply Forall2_impl; [exact Hrows|].
    intros nr0 nr (g & _ & ->). by destruct nr0 as [n [? ? ? ? ? ? ? ?]].
Qed.

(** X25. The country branch gets to saving a table exactly when the country
    layer has a row not named Antarctica and [remove_tiny_shapes] returns a
    geometry for every such row. Otherwise it raises: ValueError at line 146
    without such a row, the exception of [remove_tiny_shapes] at the first
    row where it raises, else TypeError at line 158, where a geometry that
    [remove_tiny_shapes] answered with [None] cannot be converted. *)
Theorem country_branch_returns_iff (gadm_level0 : list (string * row)) :
  ((∃ table, global_shapefiles_country area simplify_buffer gadm_level0 = Returns table)
   ↔ (∃ nr, nr ∈ gadm_level0 ∧ fst nr ≠ "Antarctica")
     ∧ ∀ nr, nr ∈ gadm_level0 → fst nr ≠ "Antarctica" →
         ∃ g, remove_tiny_shapes area (snd nr) false = Returns (Some g))
  ∧ ((∀ nr, nr ∈ gadm_level0 → fst nr = "Antarctica") →
     global_shapefiles_country area simplify_buffer gadm_level0 = Raises ValueError)
  ∧ (∀ nr, nr ∈ gadm_level0 → fst nr ≠ "Antarctica" →
       (∀ nr', nr' ∈ gadm_level0 → fst nr' ≠ "Antarctica" →
          ∃ og, remove_tiny_shapes area (snd nr') false = Returns og) →
       remove_tiny_shapes area (snd nr) false = Returns None →
       global_shapefiles_country area simplify_buffer gadm_level0 = Raises TypeError)
  ∧ (∀ pre nr post e,
       filter (fun nr => fst nr ≠ "Antarctica") gadm_level0 = pre ++ nr :: post →
       (∀ nr', nr' ∈ pre → ∃ og, remove_tiny_shapes area (snd nr') false = Returns og) →
       remove_tiny_shapes area (snd nr) false = Raises e →
       global_shapefiles_country area simplify_buffer gadm_level0 = Raises e).
Proof.
  assert (Hkept : filter (fun nr : string * row => fst nr ∉ ["Antarctica"]) gadm_level0
                  = not_antarctica gadm_level0).
  { apply list_filter_iff. intros nr. by rewrite list_elem_of_singleton. }
  split; [split|split; [|split]].
  5: { intros pre nr post e Hrows Hpre He. unfold global_shapefiles_country.
       rewrite Hkept, Hrows. unfold progress_apply.
       assert (traverse (fun nr => remove_tiny_shapes area (snd nr) false)
                        (pre ++ nr :: post) = Raises e) as Hraise
         by by apply traverse_Raises.
       destruct (pre ++ nr :: post) eqn:E; [by destruct pre|]. by rewrite Hraise. }
  - intros [table Hrun]. destruct (country_branch_rows _ _ Hrun) as [Hne Hrows]. split.
    + destruct (not_antarctica gadm_level0) as [|nr kept] eqn:E; [done|].
      assert (Hk : nr ∈ not_antarctica gadm_level0) by (rewrite E; left).
      apply list_elem_of_filter in Hk as [? ?]. by exists nr.
    + intros nr Hin Hname.
      assert (Hk : nr ∈ not_antarctica gadm_level0) by by apply list_elem_of_filter.
      apply list_elem_of_lookup in Hk as [i Hi].
      destruct (Forall2_lookup_l _ _ _ _ _ Hrows Hi) as (nr1 & _ & g & Hg & _).
      by exists g.
  - intros [(nr & Hin & Hname) Hall]. unfold global_shapefiles_country. rewrite Hkept.
    assert (Hne : not_antarctica gadm_level0 ≠ []).
    { intros E. assert (Hk : nr ∈ not_antarctica gadm_level0) by by apply list_elem_of_filter.
      rewrite E in Hk. by apply elem_of_nil in Hk. }
    assert (Hall' : ∀ nr, nr ∈ not_antarctica gadm_level0 →
                      ∃ g, remove_tiny_shapes area (snd nr) false = Returns (Some g)).
    { intros nr' [? ?]%list_elem_of_filter. by apply Hall. }
    clear Hall Hin Hname Hkept. revert Hne Hall'.
    generalize (not_antarctica gadm_level0). intros kept Hne Hall.
    assert (Hclean : traverse (fun nr => remove_tiny_shapes area (snd nr) false) kept
                     = Returns ((fun nr => Some (default (geom (snd nr))
                                  (match remove_tiny_shapes area (snd nr) false with
                                   | Returns og => og | Raises _ => None end))) <$> kept)).
    { clear Hne. induction kept as [|nr0 kept IH]; [done|].
      cbn [traverse]. destruct (Hall nr0) as [g Hg]; [left|]. rewrite Hg.
      rewrite IH by (intros nr' Hin; apply Hall; by right). by rewrite fmap_cons, Hg. }
    unfold progress_apply. destruct kept as [|nr0 kept]; [done|]. rewrite Hclean.
    set (cleaned := _ <$> (nr0 :: kept)).
    assert (Hconv : ∃ converted,
              traverse (fun g : option geometry =>
                          match g return outcome geometry with
                          | Some g' => Returns g' | None => Raises TypeError end)
                       ((fun g : option geometry => simplify_buffer <$> g) <$> cleaned)
              = Returns converted).
    { subst cleaned. generalize (nr0 :: kept). intros l.
      induction l as [|a l [converted IH]]; [by eexists|].
      rewrite !fmap_cons. cbn [traverse fmap option_fmap option_map].
      rewrite IH. by eexists. }
    destruct Hconv as [converted ->]. by eexists.
  - intros Hall. unfold global_shapefiles_country. rewrite Hkept.
    assert (not_antarctica gadm_level0 = []) as ->; [|done].
    apply RegionFacts.filter_none. intros nr Hin Hname. by apply Hname, Hall.
  - intros nr Hin Hname Hret Hnone. unfold global_shapefiles_country. rewrite Hkept.
    assert (Hk : nr ∈ not_antarctica gadm_level0) by by apply list_elem_of_filter.
    assert (Hret' : ∀ nr', nr' ∈ not_antarctica gadm_level0 →
                      ∃ og, remove_tiny_shapes area (snd nr') false = Returns og).
    { intros nr' [? ?]%list_elem_of_filter. by apply Hret. }
    clear Hret Hin Hname Hkept. revert Hk Hret'.
    generalize (not_antarctica gadm_level0). intros kept Hk Hret.
    assert (Hclean : ∃ cleaned,
              traverse (fun nr => remove_tiny_shapes area (snd nr) false) kept
              = Returns cleaned
              ∧ None ∈ cleaned).
    { induction kept as [|nr0 kept IH]; [by apply elem_of_nil in Hk|].
      cbn [traverse]. destruct (Hret nr0) as [og Hog]; [left|]. rewrite Hog.
      assert (Hrest : ∃ rest, traverse (fun nr => remove_tiny_shapes area (snd nr) false)
                                       kept = Returns rest
                              ∧ (nr ∈ kept → None ∈ rest)).
      { clear IH Hk Hog. induction kept as [|nr1 kept IH1].
        - eexists. split; [done|]. by intros ?%elem_of_nil.
        - cbn [traverse]. destruct (Hret nr1) as [og1 Hog1]; [right; left|]. rewrite Hog1.
          destruct IH1 as (rest & -> & Hrest).
          { intros nr' Hin. apply Hret. apply elem_of_cons in Hin as [-> | Hin];
              [left | right; by right]. }
          eexists. split; [done|]. intros [-> | Hin]%elem_of_cons.
          + rewrite Hnone in Hog1. injection Hog1 as <-. left.
          + right. by apply Hrest. }
      destruct Hrest as (rest & -> & Hrest). eexists. split; [done|].
      apply elem_of_cons in Hk as [<- | Hk].
      - rewrite Hnone in Hog. injection Hog as <-. left.
      - right. by apply Hrest. }
    destruct Hclean as (cleaned & Hclean & Hin).
    unfold progress_apply. destruct kept as [|nr0 kept]; [by apply elem_of_nil in Hk|].
    rewrite Hclean.
    assert (Hconv : traverse (fun g : option geometry =>
                                match g return outcome geometry with
                                | Some g' => Returns g' | None => Raises TypeError end)
                             ((fun g : option geometry => simplify_buffer <$> g) <$> cleaned)
                    = Raises TypeError).
    { clear Hclean. induction cleaned as [|og cleaned IH]; [by apply elem_of_nil in Hin|].
      rewrite fmap_cons. cbn [traverse]. destruct og as [g|]; [|done].
      cbn [fmap option_fmap option_map].
      rewrite IH; [done|]. by apply elem_of_cons in Hin as [? | ?]. }
    by rewrite Hconv.
Qed.

End ShapefilesMore.

(** ** poly_files: rows that raise, and what a batch leaves *)

Lemma append_length (a b : string) :
  String.length (a +:+ b) = String.length a + String.length b.
Proof.
  induction a as [|x a IH]; [done|].
  rewrite TextFacts.append_cons. cbn [String.length]. by rewrite IH.
Qed.

Lemma append_inj_r (a b s : string) : a +:+ s = b +:+ s → a = b.
Proof.
  revert b. induction a as [|x a IH]; intros [|y b] H; [done|..].
  - apply (f_equal String.length) in H.
    rewrite TextFacts.append_nil_l, TextFacts.append_cons in H.
    cbn [String.length] in H. rewrite append_length in H. lia.
  - apply (f_equal String.length) in H.
    rewrite TextFacts.append_nil_l, TextFacts.append_cons in H.
    cbn [String.length] in H. rewrite append_length in H. lia.
  - rewrite !TextFacts.append_cons in H. injection H as -> H. f_equal. by apply IH.
Qed.

(** The artifacts of two codes are two files. *)
Lemma poly_path_inj (poly_dir a b : string) : poly_path poly_dir a = poly_path poly_dir b → a = b.
Proof.
  unfold poly_path. intros H.
  apply (inj (String.append poly_dir)) in H. apply (inj (String.append "/")) in H.
  by apply append_inj_r in H.
Qed.

(** Writing a list of files one after the other. *)
Lemma store_absorbs (k : string) (v v' : string) (l : list (string * string))
    (m : gmap string string) :
  <[k := v]> (foldl (fun m kv => <[fst kv := snd kv]> m) (<[k := v']> m) l)
  = <[k := v]> (foldl (fun m kv => <[fst kv := snd kv]> m) m l).
Proof.
  revert m. induction l as [|[k1 v1] l IH]; intros m.
  - cbn. by rewrite insert_insert_eq.
  - cbn [foldl fst snd]. destruct (decide (k1 = k)) as [-> | Hne].
    + by rewrite insert_insert_eq.
    + rewrite (insert_insert_ne m) by done. apply IH.
Qed.

Lemma store_twice (l : list (string * string)) (m : gmap string string) :
  foldl (fun m kv => <[fst kv := snd kv]> m)
        (foldl (fun m kv => <[fst kv := snd kv]> m) m l) l
  = foldl (fun m kv => <[fst kv := snd kv]> m) m l.
Proof.
  induction l as [|[k v] l IH] using rev_ind; [done|].
  rewrite !foldl_app. cbn [foldl fst snd].
  by rewrite store_absorbs, IH.
Qed.

Section WriterMore.

Variable centroid : polygon -> coord.
Variable geodesic_km : Q * Q -> Q * Q -> Q.
Variable str_float : Q -> string.

Local Abbreviation emitted := (emitted centroid geodesic_km).
Local Abbreviation printed := (printed centroid geodesic_km).
Local Abbreviation poly_text := (poly_text str_float).
Local Abbreviation poly_row := (poly_row centroid geodesic_km str_float).
Local Abbreviation poly_rows := (poly_rows centroid geodesic_km str_float).
Local Abbreviation poly_files := (poly_files centroid geodesic_km str_float).
Local Abbreviation poly_files_table := (poly_files_table centroid geodesic_km str_float).

(** A missing geometry raises AttributeError before the file is opened. *)
Lemma poly_row_missing_geometry (regionalized : bool) (poly_dir : string) (v : loop_vars)
    (w : world) (f : row) :
  geom f = OtherGeometry Missing →
  poly_row regionalized poly_dir (v, w) f
  = (mkVars (S (num v)) (polygons v), w, Raise AttributeError).
Proof. intros E. unfold poly_row. by rewrite E. Qed.

(** A code that holds no value raises TypeError before the file is opened. *)
Lemma poly_row_no_code (regionalized : bool) (poly_dir : string) (v : loop_vars)
    (w : world) (f : row) :
  geom f ≠ OtherGeometry Missing → attr_of regionalized f = None →
  poly_row regionalized poly_dir (v, w) f
  = (mkVars (S (num v)) (rebind_polygons (geom f) (polygons v)), w, Raise TypeError).
Proof.
  intros Hgeom Hattr. unfold poly_row. rewrite Hattr.
  destruct (geom f) as [| |[]]; done.
Qed.

(** A geometry of another kind, with [polygons] unbound. *)
Lemma poly_row_unbound (regionalized : bool) (poly_dir : string) (v : loop_vars)
    (w : world) (f : row) (attr : string) (k : other_kind) :
  geom f = OtherGeometry k → k ≠ Missing → attr_of regionalized f = Some attr →
  polygons v = None →
  poly_row regionalized poly_dir (v, w) f
  = (mkVars (S (num v)) None,
     mkWorld (<[poly_path poly_dir attr := attr +:+ Text.nl]> (files w))
             (stdout w) (calls w),
     Raise UnboundLocalError).
Proof.
  intros E Hk Hattr Hv. unfold poly_row. rewrite Hattr, E.
  cbn [rebind_polygons polygons]. rewrite Hv.
  unfold open_w. rewrite write_inserted, TextFacts.append_nil_l.
  by destruct k.
Qed.

(** X11. The ways a row can go. A missing geometry raises AttributeError and
    a code that holds no value raises TypeError, both before the file is
    opened: the world is as it was. A geometry that is there but is neither a
    polygon nor a multipolygon raises nothing by itself: with [polygons]
    bound by an earlier row, the rings of that row are written under the code
    of this one; with [polygons] unbound, UnboundLocalError is raised after
    the file was opened, and the file holds the code line only. A column
    that the table does not have raises KeyError: [GID_0], and [TYPE_1] when
    regionalized, before any row is looked at; [GID_1], when regionalized,
    at the first row of the loop; nothing is written. *)
Theorem poly_row_outcomes (regionalized : bool) (poly_dir : string) (v : loop_vars)
    (w : world) (f : row) :
  (geom f = OtherGeometry Missing →
   poly_row regionalized poly_dir (v, w) f
   = (mkVars (S (num v)) (polygons v), w, Raise AttributeError))
  ∧ (geom f ≠ OtherGeometry Missing → attr_of regionalized f = None →
     poly_row regionalized poly_dir (v, w) f
     = (mkVars (S (num v)) (rebind_polygons (geom f) (polygons v)), w, Raise TypeError))
  ∧ (∀ attr k, geom f = OtherGeometry k → k ≠ Missing →
       attr_of regionalized f = Some attr →
       match polygons v with
       | Some ps =>
           poly_row regionalized poly_dir (v, w) f
           = (mkVars (S (num v)) (Some ps),
              mkWorld (<[poly_path poly_dir attr
                         := poly_text attr (emitted (GID_0 f) attr ps)]> (files w))
                      (stdout w ++ printed (GID_0 f) attr ps) (calls w),
              Ok)
       | None =>
           poly_row regionalized poly_dir (v, w) f
           = (mkVars (S (num v)) None,
              mkWorld (<[poly_path poly_dir attr := attr +:+ Text.nl]> (files w))
                      (stdout w) (calls w),
              Raise UnboundLocalError)
       end)
  ∧ (∀ data_path t, "GID_0" ∉ table_columns t →
       poly_files_table data_path t regionalized w = (mkVars 0 None, w, Raise KeyError))
  ∧ (∀ data_path t, "TYPE_1" ∉ table_columns t →
       poly_files_table data_path t true w = (mkVars 0 None, w, Raise KeyError))
  ∧ (∀ data_path t rest,
       "GID_0" ∈ table_columns t → "TYPE_1" ∈ table_columns t →
       "GID_1" ∉ table_columns t →
       filter (keep_row true) (table_rows t) = f :: rest →
       geom f ≠ OtherGeometry Missing →
       poly_files_table data_path t true w
       = (mkVars 1 (rebind_polygons (geom f) None), w, Raise KeyError)).
Proof.
  split; [apply poly_row_missing_geometry|]. split; [apply poly_row_no_code|].
  split; [|split; [|split]].
  - intros attr k E Hk Hattr. destruct (polygons v) as [ps|] eqn:Hv.
    + rewrite <- Hv. erewrite poly_row_ok; [by rewrite Hv | done | by rewrite E | ].
      rewrite E. congruence.
    + by eapply poly_row_unbound.
  - intros data_path t H0. unfold poly_files_table.
    by rewrite bool_decide_eq_true_2.
  - intros data_path t H1. unfold poly_files_table.
    destruct (bool_decide ("GID_0" ∉ table_columns t)); [done|].
    by rewrite (bool_decide_eq_true_2 _ H1).
  - intros data_path t rest H0 H1 Hno Hrows Hgeom. unfold poly_files_table.
    rewrite (bool_decide_eq_false_2 ("GID_0" ∉ table_columns t)) by tauto.
    rewrite (bool_decide_eq_false_2 ("TYPE_1" ∉ table_columns t)) by tauto.
    rewrite (bool_decide_eq_true_2 _ Hno). cbn [andb]. rewrite Hrows.
    destruct (geom f) as [| |[]]; done.
Qed.

(** What one row does to the files is to store at most one file, the same
    whatever the world is. *)
Lemma poly_row_effect (regionalized : bool) (poly_dir : string) (v : loop_vars) (f : row) :
  ∃ v' stored out r,
    (∀ kv, kv ∈ stored → ∃ attr, attr_of regionalized f = Some attr
                                 ∧ fst kv = poly_path poly_dir attr)
    ∧ (r = Ok → ∃ attr text, attr_of regionalized f = Some attr
                             ∧ stored = [(poly_path poly_dir attr, text)])
    ∧ ∀ w, poly_row regionalized poly_dir (v, w) f
           = (v', mkWorld (foldl (fun m kv => <[fst kv := snd kv]> m) (files w) stored)
                          (stdout w ++ out) (calls w), r).
Proof.
  assert (geom f = OtherGeometry Missing ∨ geom f ≠ OtherGeometry Missing) as [E | Hgeom]
    by (destruct (geom f) as [| |[]]; (by left) || (by right)).
  { eexists _, [], [], _. split; [by intros kv Hkv%elem_of_nil|].
    split; [|intros w; rewrite (poly_row_missing_geometry _ _ _ _ _ E);
             cbn [foldl]; rewrite app_nil_r; by destruct w].
    discriminate. }
  destruct (attr_of regionalized f) as [attr|] eqn:Hattr.
  2: { eexists _, [], [], _. split; [by intros kv Hkv%elem_of_nil|].
       split; [|intros w; rewrite (poly_row_no_code _ _ _ _ _ Hgeom Hattr);
                cbn [foldl]; rewrite app_nil_r; by destruct w].
       discriminate. }
  destruct (rebind_polygons (geom f) (polygons v)) as [ps|] eqn:Hps.
  - eexists _, [(_, _)], _, Ok. split; [|split].
    + intros kv ->%list_elem_of_singleton. by exists attr.
    + intros _. by eexists attr, _.
    + intros w. by rewrite (poly_row_ok _ _ _ _ _ _ _ _ _ _ Hattr Hps Hgeom).
  - assert (∃ k, geom f = OtherGeometry k ∧ k ≠ Missing ∧ polygons v = None)
      as (k & E & Hk & Hv).
    { destruct (geom f) as [| |k]; try done. exists k. split; [done|]. split; [congruence|done]. }
    eexists _, [(_, _)], [], (Raise UnboundLocalError). split; [|split].
    + intros kv ->%list_elem_of_singleton. by exists attr.
    + discriminate.
    + intros w.
      rewrite (poly_row_unbound regionalized poly_dir v w f attr k E Hk Hattr Hv).
      cbn [foldl fst snd]. by rewrite app_nil_r.
Qed.

(** The same for a batch. *)
Lemma poly_rows_effect (regionalized : bool) (poly_dir : string) (rows : list row)
    (v : loop_vars) :
  ∃ v' stored out r,
    (∀ kv, kv ∈ stored → ∃ f attr, f ∈ rows ∧ attr_of regionalized f = Some attr
                                   ∧ fst kv = poly_path poly_dir attr)
    ∧ (r = Ok → ∀ f, f ∈ rows → ∃ attr text, attr_of regionalized f = Some attr
                                             ∧ (poly_path poly_dir attr, text) ∈ stored)
    ∧ ∀ w, poly_rows regionalized poly_dir (v, w) rows
           = (v', mkWorld (foldl (fun m kv => <[fst kv := snd kv]> m) (files w) stored)
                          (stdout w ++ out) (calls w), r).
Proof.
  revert v. induction rows as [|f rows IH]; intros v.
  - exists v, [], [], Ok. split; [by intros kv Hkv%elem_of_nil|].
    split; [by intros _ f Hf%elem_of_nil|].
    intros w. cbn [poly_rows foldl]. rewrite app_nil_r. by destruct w.
  - destruct (poly_row_effect regionalized poly_dir v f)
      as (v1 & st1 & out1 & r1 & Hst1 & Hok1 & Hrow).
    destruct r1 as [|e].
    + destruct (IH v1) as (v2 & st2 & out2 & r2 & Hst2 & Hok2 & Hrows).
      exists v2, (st1 ++ st2), (out1 ++ out2), r2. split; [|split].
      * intros kv [Hkv | Hkv]%elem_of_app.
        -- destruct (Hst1 kv Hkv) as (attr & ? & ?). exists f, attr. split; [left|done].
        -- destruct (Hst2 kv Hkv) as (g & attr & ? & ? & ?). exists g, attr.
           split; [by right|done].
      * intros -> g Hg. apply elem_of_cons in Hg as [-> | Hg].
        -- destruct (Hok1 eq_refl) as (attr & text & ? & ->). exists attr, text.
           split; [done|]. apply elem_of_app. left. left.
        -- destruct (Hok2 eq_refl g Hg) as (attr & text & ? & ?). exists attr, text.
           split; [done|]. apply elem_of_app. by right.
      * intros w. cbn [poly_rows]. rewrite Hrow, Hrows. cbn [files stdout calls].
        by rewrite foldl_app, app_assoc.
    + exists v1, st1, out1, (Raise e). split; [|split].
      * intros kv Hkv. destruct (Hst1 kv Hkv) as (attr & ? & ?). exists f, attr.
        split; [left|done].
      * discriminate.
      * intros w. cbn [poly_rows]. by rewrite Hrow.
Qed.

Lemma lookup_store (l : list (string * string)) (m : gmap string string) (path : string) :
  foldl (fun m kv => <[fst kv := snd kv]> m) m l !! path ≠ m !! path →
  ∃ kv, kv ∈ l ∧ fst kv = path.
Proof.
  revert m. induction l as [|[k t] l IH]; intros m Hne; [done|].
  cbn [foldl fst snd] in Hne.
  destruct (decide (k = path)) as [-> | Hk].
  - exists (path, t). split; [left|done].
  - destruct (IH (<[k := t]> m)) as (kv & Hkv & Hpath).
    + by rewrite lookup_insert_ne.
    + exists kv. split; [by right|done].
Qed.

Lemma lookup_store_is_Some (l : list (string * string)) (m : gmap string string)
    (kv : string * string) :
  kv ∈ l → is_Some (foldl (fun m kv => <[fst kv := snd kv]> m) m l !! fst kv).
Proof.
  induction l as [|kv' l IH] using rev_ind; intros Hin; [by apply elem_of_nil in Hin|].
  rewrite foldl_app. cbn [foldl].
  destruct (decide (fst kv' = fst kv)) as [<- | Hne].
  - rewrite lookup_insert_eq. by eexists.
  - rewrite lookup_insert_ne by done. apply IH.
    apply elem_of_app in Hin as [Hin | ->%list_elem_of_singleton]; done.
Qed.

(** X12. A run of [poly_files], finished or ended by an exception, runs no
    command, and every file it creates or changes is the artifact of a row
    that passed the filter: a row whose country code is [-] and, when
    regionalized, a row of type [Water body] leave nothing. *)
Theorem poly_files_touches_only_artifacts (data_path : string) (wb_poly : list row)
    (regionalized : bool) (w w' : world) (v' : loop_vars) (r : result) :
  poly_files data_path wb_poly regionalized w = (v', w', r) →
  let poly_dir :=
    if regionalized then Text.path_join data_path "regional_poly_files"
    else Text.path_join data_path "country_poly_files" in
  calls w' = calls w
  ∧ ∀ path, files w' !! path ≠ files w !! path →
      ∃ f attr, f ∈ wb_poly
                ∧ GID_0 f ≠ "-"
                ∧ (regionalized = true → TYPE_1 f ≠ Some "Water body")
                ∧ attr_of regionalized f = Some attr
                ∧ path = poly_path poly_dir attr.
Proof.
  intros Hrun poly_dir. unfold poly_files in Hrun. fold poly_dir in Hrun.
  destruct (poly_rows_effect regionalized poly_dir
              (filter (keep_row regionalized) wb_poly) (mkVars 0 None))
    as (v1 & stored & out & r1 & Hstored & _ & Hrows).
  rewrite Hrows in Hrun. injection Hrun as <- <- <-. cbn [files calls].
  split; [done|]. intros path Hne.
  destruct (lookup_store _ _ _ Hne) as (kv & Hkv & <-).
  destruct (Hstored kv Hkv) as (f & attr & Hf & Hattr & Hpath).
  apply list_elem_of_filter in Hf as [Hkeep Hf].
  exists f, attr. split; [done|].
  unfold keep_row in Hkeep. destruct regionalized.
  - apply Is_true_true, andb_true_iff in Hkeep as [H0 H1].
    apply bool_decide_eq_true in H0. apply bool_decide_eq_true in H1. done.
  - apply Is_true_true, bool_decide_eq_true in Hkeep. done.
Qed.

(** X13. When [poly_files] finishes without an exception, every row that
    passed the filter has a code and its artifact is there. *)
Theorem poly_files_ok_all_present (data_path : string) (wb_poly : list row)
    (regionalized : bool) (w w' : world) (v' : loop_vars) :
  poly_files data_path wb_poly regionalized w = (v', w', Ok) →
  let poly_dir :=
    if regionalized then Text.path_join data_path "regional_poly_files"
    else Text.path_join data_path "country_poly_files" in
  ∀ f, f ∈ wb_poly → Is_true (keep_row regionalized f) →
    ∃ attr, attr_of regionalized f = Some attr
            ∧ is_Some (files w' !! poly_path poly_dir attr).
Proof.
  intros Hrun poly_dir f Hf Hkeep. unfold poly_files in Hrun. fold poly_dir in Hrun.
  destruct (poly_rows_effect regionalized poly_dir
              (filter (keep_row regionalized) wb_poly) (mkVars 0 None))
    as (v1 & stored & out & r1 & _ & Hok & Hrows).
  rewrite Hrows in Hrun. injection Hrun as <- <- ->. cbn [files].
  destruct (Hok eq_refl f) as (attr & text & Hattr & Hin).
  { by apply list_elem_of_filter. }
  exists attr. split; [done|].
  apply (lookup_store_is_Some _ _ _ Hin).
Qed.

(** X14. Running [poly_files] a second time on the same table gives the same
    outcome and leaves the files as the first run left them: artifacts are
    overwritten with the same text. *)
Theorem poly_files_twice (data_path : string) (wb_poly : list row)
    (regionalized : bool) (w w' : world) (v' : loop_vars) (r : result) :
  poly_files data_path wb_poly regionalized w = (v', w', r) →
  ∃ w'', poly_files data_path wb_poly regionalized w' = (v', w'', r)
         ∧ files w'' = files w'.
Proof.
  intros Hrun. unfold poly_files in *.
  set (poly_dir := if regionalized then Text.path_join data_path "regional_poly_files"
                   else Text.path_join data_path "country_poly_files") in *.
  destruct (poly_rows_effect regionalized poly_dir
              (filter (keep_row regionalized) wb_poly) (mkVars 0 None))
    as (v1 & stored & out & r1 & _ & _ & Hrows).
  rewrite Hrows in Hrun. injection Hrun as <- <- <-.
  eexists. split; [apply Hrows|]. cbn [files]. apply store_twice.
Qed.

(** A polygon or a multipolygon binds [polygons] whatever it held. *)
Lemma rebind_polygons_bound (g : geometry) (ps : list polygon) (old : option (list polygon)) :
  rebind_polygons g None = Some ps →
  rebind_polygons g old = Some ps ∧ g ≠ OtherGeometry Missing.
Proof. by destruct g. Qed.

Lemma poly_rows_distinct_codes (regionalized : bool) (poly_dir : string) (rows : list row)
    (v : loop_vars) (w : world) :
  (∀ f, f ∈ rows → is_Some (attr_of regionalized f)
                   ∧ is_Some (rebind_polygons (geom f) None)) →
  NoDup (attr_of regionalized <$> rows) →
  ∃ v' w',
    poly_rows regionalized poly_dir (v, w) rows = (v', w', Ok)
    ∧ ∀ f attr ps, f ∈ rows → attr_of regionalized f = Some attr →
        rebind_polygons (geom f) None = Some ps →
        files w' !! poly_path poly_dir attr
        = Some (poly_text attr (emitted (GID_0 f) attr ps)).
Proof.
  revert v w. induction rows as [|f rows IH]; intros v w Hrows Hdup.
  - eexists _, _. split; [done|]. by intros f attr ps Hf%elem_of_nil.
  - apply NoDup_cons in Hdup as [Hfresh Hdup].
    destruct (Hrows f) as [[attr Hattr] [ps Hps]]; [left|].
    destruct (rebind_polygons_bound _ _ (polygons v) Hps) as [Hps' Hgeom].
    pose proof (poly_row_ok centroid geodesic_km str_float regionalized poly_dir v w f
                            attr ps Hattr Hps' Hgeom) as Hrow.
    destruct (IH (mkVars (S (num v)) (Some ps))
                 (mkWorld (<[poly_path poly_dir attr
                             := poly_text attr (emitted (GID_0 f) attr ps)]> (files w))
                          (stdout w ++ printed (GID_0 f) attr ps) (calls w)))
      as (v' & w' & Hrest & Hfiles).
    { intros g Hg. apply Hrows. by right. }
    { done. }
    exists v', w'. split; [cbn [poly_rows]; by rewrite Hrow|].
    intros g attr_g ps_g Hg Hattr_g Hps_g.
    apply elem_of_cons in Hg as [-> | Hg]; [|by eapply Hfiles].
    assert (attr_g = attr) as -> by congruence.
    assert (ps_g = ps) as -> by congruence.
    destruct (poly_rows_effect regionalized poly_dir rows (mkVars (S (num v)) (Some ps)))
      as (v2 & stored & out & r2 & Hstored & _ & Heffect).
    rewrite Heffect in Hrest. injection Hrest as _ <- _. cbn [files].
    destruct (decide (foldl (fun m kv => <[fst kv := snd kv]> m)
                            (<[poly_path poly_dir attr
                               := poly_text attr (emitted (GID_0 f) attr ps)]> (files w))
                            stored !! poly_path poly_dir attr
                      = <[poly_path poly_dir attr
                          := poly_text attr (emitted (GID_0 f) attr ps)]> (files w)
                          !! poly_path poly_dir attr)) as [-> | Hne].
    + by rewrite lookup_insert_eq.
    + exfalso. destruct (lookup_store _ _ _ Hne) as (kv & Hkv & Hpath).
      destruct (Hstored kv Hkv) as (g & attr' & Hg & Hattr' & Hkv').
      rewrite Hkv' in Hpath. apply poly_path_inj in Hpath as ->.
      apply Hfresh. apply list_elem_of_fmap. exists g. split; [congruence|done].
Qed.

(** X15. On a table that has the columns read ([GID_0] and, when
    regionalized, [TYPE_1] and [GID_1]): when the rows that pass the filter
    are polygons or multipolygons with codes that differ from one another,
    [poly_files] finishes without an exception and the artifact of every
    such row holds the rings of that row (those that the rule for its
    country lets through), numbered from 0. *)
Theorem poly_files_distinct_codes (data_path : string) (t : table)
    (regionalized : bool) (w : world) :
  let poly_dir :=
    if regionalized then Text.path_join data_path "regional_poly_files"
    else Text.path_join data_path "country_poly_files" in
  let rows := filter (keep_row regionalized) (table_rows t) in
  "GID_0" ∈ table_columns t →
  (regionalized = true → "TYPE_1" ∈ table_columns t ∧ "GID_1" ∈ table_columns t) →
  (∀ f, f ∈ rows → is_Some (attr_of regionalized f)
                   ∧ is_Some (rebind_polygons (geom f) None)) →
  NoDup (attr_of regionalized <$> rows) →
  ∃ v' w',
    poly_files_table data_path t regionalized w = (v', w', Ok)
    ∧ ∀ f attr ps, f ∈ rows → attr_of regionalized f = Some attr →
        rebind_polygons (geom f) None = Some ps →
        files w' !! poly_path poly_dir attr
        = Some (poly_text attr (emitted (GID_0 f) attr ps)).
Proof.
  intros poly_dir rows H0 Hcols Hrows Hdup.
  assert (Hcode : poly_files_table data_path t regionalized w
                  = poly_files data_path (table_rows t) regionalized w).
  { unfold poly_files_table.
    rewrite (bool_decide_eq_false_2 ("GID_0" ∉ table_columns t)) by tauto.
    destruct regionalized; [|done]. destruct (Hcols eq_refl) as [H1 H2].
    rewrite (bool_decide_eq_false_2 ("TYPE_1" ∉ table_columns t)) by tauto.
    by rewrite (bool_decide_eq_false_2 ("GID_1" ∉ table_columns t)) by tauto. }
  rewrite Hcode. unfold poly_files. fold poly_dir. fold rows.
  by apply poly_rows_distinct_codes.
Qed.

(** *** Exceptions *)

Lemma poly_row_Raise_inv (regionalized : bool) (poly_dir : string) (v v' : loop_vars)
    (w w' : world) (f : row) (e : exn) :
  poly_row regionalized poly_dir (v, w) f = (v', w', Raise e) →
  w' = w
  ∨ (e = UnboundLocalError ∧ polygons v = None
     ∧ ∃ attr, attr_of regionalized f = Some attr
               ∧ w' = mkWorld (<[poly_path poly_dir attr := attr +:+ Text.nl]> (files w))
                              (stdout w) (calls w)).
Proof.
  intros Hrow.
  assert (geom f = OtherGeometry Missing ∨ geom f ≠ OtherGeometry Missing) as [E | Hgeom]
    by (destruct (geom f) as [| |[]]; (by left) || (by right)).
  { rewrite (poly_row_missing_geometry _ _ _ _ _ E) in Hrow. left. congruence. }
  destruct (attr_of regionalized f) as [attr|] eqn:Hattr.
  2: { rewrite (poly_row_no_code _ _ _ _ _ Hgeom Hattr) in Hrow. left. congruence. }
  destruct (rebind_polygons (geom f) (polygons v)) as [ps|] eqn:Hps.
  - by rewrite (poly_row_ok _ _ _ _ _ _ _ _ _ _ Hattr Hps Hgeom) in Hrow.
  - assert (∃ k, geom f = OtherGeometry k ∧ k ≠ Missing ∧ polygons v = None)
      as (k & E & Hk & Hv).
    { destruct (geom f) as [| |k]; try done. exists k. split; [done|]. split; [congruence|done]. }
    rewrite (poly_row_unbound _ _ _ _ _ _ _ E Hk Hattr Hv) in Hrow.
    right. injection Hrow as _ <- <-. split; [done|]. split; [done|]. by exists attr.
Qed.

(** After a row that raised nothing [polygons] is bound. *)
Lemma poly_rows_Ok_bound (regionalized : bool) (poly_dir : string) (rows : list row)
    (v : loop_vars) (w : world) (st : loop_vars * world) :
  poly_rows regionalized poly_dir (v, w) rows = (st, Ok) →
  rows ≠ [] ∨ is_Some (polygons v) →
  is_Some (polygons (fst st)).
Proof.
  revert v w. induction rows as [|f rows IH]; intros v w Hrows Hbound.
  - injection Hrows as <-. by destruct Hbound.
  - cbn [poly_rows] in Hrows.
    destruct (poly_row regionalized poly_dir (v, w) f) as [[v1 w1] [|e1]] eqn:Hrow;
      [|discriminate].
    destruct (poly_row_Ok_inv _ _ _ _ _ _ _ _ _ _ Hrow) as (attr & ps & Hattr & Hps & Hgeom).
    rewrite (poly_row_ok _ _ _ _ _ _ _ _ _ _ Hattr Hps Hgeom) in Hrow.
    injection Hrow as <- _. eapply IH; [exact Hrows|]. right. by eexists.
Qed.

(** C8, as the code has it. Nothing in [poly_files] catches an exception:
    when the processing of a row raises, [poly_files] ends with that
    exception, whatever rows come after, and they are not processed: a
    file that differs from what it was before the run is the artifact of
    the raising row or of a row before it. The rows before it have been
    processed and their artifacts stay written: the raising row leaves the
    world as those rows left it, except when it is the first row and
    [polygons] is unbound, when its own artifact holds its code line. *)
Theorem exception_ends_batch (data_path : string) (wb_poly : list row)
    (regionalized : bool) (w : world) (pre post : list row) (f : row)
    (st st' : loop_vars * world) (e : exn) :
  let poly_dir :=
    if regionalized then Text.path_join data_path "regional_poly_files"
    else Text.path_join data_path "country_poly_files" in
  filter (keep_row regionalized) wb_poly = pre ++ f :: post →
  poly_rows regionalized poly_dir (mkVars O None, w) pre = (st, Ok) →
  poly_row regionalized poly_dir st f = (st', Raise e) →
  poly_files data_path wb_poly regionalized w = (st', Raise e)
  ∧ (∀ post', poly_rows regionalized poly_dir (mkVars O None, w) (pre ++ f :: post')
              = (st', Raise e))
  ∧ (∀ g, g ∈ pre →
       ∃ attr, attr_of regionalized g = Some attr
               ∧ is_Some (files (snd st) !! poly_path poly_dir attr)
               ∧ files (snd st') !! poly_path poly_dir attr
                 = files (snd st) !! poly_path poly_dir attr)
  ∧ (pre ≠ [] → snd st' = snd st)
  ∧ (∀ path, files (snd st') !! path ≠ files (snd st) !! path →
       pre = [] ∧ e = UnboundLocalError
       ∧ ∃ attr, attr_of regionalized f = Some attr
                 ∧ path = poly_path poly_dir attr
                 ∧ files (snd st') !! path = Some (attr +:+ Text.nl))
  ∧ (∀ path, files (snd st') !! path ≠ files w !! path →
       ∃ g attr, g ∈ pre ++ [f] ∧ attr_of regionalized g = Some attr
                 ∧ path = poly_path poly_dir attr).
Proof.
  intros poly_dir Hrows Hpre Hf.
  destruct (poly_rows_effect regionalized poly_dir pre (mkVars 0 None))
    as (v1 & stored & out & r1 & Hstored & Hok & Heffect).
  rewrite Heffect in Hpre. injection Hpre as <- ->.
  destruct st' as [v' w']. cbn [fst snd files] in *.
  pose proof (poly_row_Raise_inv _ _ _ _ _ _ _ _ Hf) as Hinv. cbn [files stdout calls] in Hinv.
  assert (Hkeep : pre ≠ [] → w' = mkWorld (foldl (fun m kv => <[fst kv := snd kv]> m)
                                                 (files w) stored)
                                          (stdout w ++ out) (calls w)).
  { intros Hne. destruct Hinv as [-> | (_ & Hv & _)]; [done|].
    pose proof (poly_rows_Ok_bound regionalized poly_dir pre (mkVars 0 None) w _
                                   (Heffect w) (or_introl Hne)) as [ps Hps].
    cbn [fst] in Hps. congruence. }
  assert (Hown : ∀ path,
            files w' !! path ≠ foldl (fun m kv => <[fst kv := snd kv]> m) (files w) stored
                               !! path →
            pre = [] ∧ e = UnboundLocalError
            ∧ ∃ attr, attr_of regionalized f = Some attr
                      ∧ path = poly_path poly_dir attr
                      ∧ files w' !! path = Some (attr +:+ Text.nl)).
  { intros path Hne. destruct Hinv as [-> | (-> & Hv & attr & Hattr & ->)]; [done|].
    cbn [files] in *. split.
    { destruct pre as [|g pre']; [done|]. exfalso.
      pose proof (poly_rows_Ok_bound regionalized poly_dir (g :: pre') (mkVars 0 None) w _
                                     (Heffect w) (or_introl (not_eq_sym (@nil_cons _ g pre'))))
        as [ps Hps].
      cbn [fst] in Hps. congruence. }
    split; [done|]. exists attr. split; [done|].
    destruct (decide (path = poly_path poly_dir attr)) as [-> | Hp].
    - split; [done|]. by rewrite lookup_insert_eq.
    - by rewrite lookup_insert_ne in Hne. }
  split; [|split; [|split; [|split; [|split]]]].
  - unfold poly_files. fold poly_dir. rewrite Hrows.
    eapply poly_rows_raise; [apply Heffect | exact Hf].
  - intros post'. eapply poly_rows_raise; [apply Heffect | exact Hf].
  - intros g Hg. destruct (Hok eq_refl g Hg) as (attr & text & Hattr & Hin).
    exists attr. split; [done|].
    split; [apply (lookup_store_is_Some _ _ _ Hin)|].
    rewrite Hkeep; [done|]. intros ->. by apply elem_of_nil in Hg.
  - exact Hkeep.
  - exact Hown.
  - intros path Hne.
    destruct (decide (files w' !! path
                      = foldl (fun m kv => <[fst kv := snd kv]> m) (files w) stored
                        !! path)) as [Hsame | Hdiff].
    + rewrite Hsame in Hne. destruct (lookup_store _ _ _ Hne) as (kv & Hkv & <-).
      destruct (Hstored kv Hkv) as (g & attr & Hg & Hattr & Hpath).
      exists g, attr. split; [apply elem_of_app; by left|done].
    + destruct (Hown path Hdiff) as (_ & _ & attr & Hattr & -> & _).
      exists f, attr. split; [|done]. apply elem_of_app. right. left.
Qed.

End WriterMore.

(** ** The clip functions with the destination absent, and run again *)

Section ClipMore.

Variable os_system : string -> gmap string string -> gmap string string * result.
Variable planet_osm_repr : string.

Lemma clip_with_run (cmd area_pbf : string) (w : world) :
  files w !! area_pbf = None →
  clip_with os_system cmd area_pbf w
  = mkWorld (fst (os_system cmd (files w)))
            (stdout w ++ [area_pbf +:+ " started!";
                          area_pbf +:+ match snd (os_system cmd (files w)) with
                                       | Ok => " finished!"
                                       | Raise _ => " did not finish!"
                                       end])
            (calls w ++ [cmd]).
Proof.
  intros Habsent. unfold clip_with, exists_path, print, system. cbn [files stdout calls].
  rewrite bool_decide_eq_false_2 by (rewrite Habsent; by intros [? ?]). cbn [negb].
  destruct (os_system cmd (files w)) as [fs [|e]]; cbn [files stdout calls fst snd];
    by rewrite <- app_assoc.
Qed.

(** X16. With the destination absent each clip function runs exactly one
    command: [osmconvert64-0.8.8p] on the planet path with [-B=] the boundary
    file, [--complete-ways] and [-o=] the destination, or [osmosis] reading
    what [planet_osm] prints as (not the planet path) and writing the
    destination. It prints [finished!] whenever [os.system] returns, whether
    or not the destination was produced, and [did not finish!] when it
    raises; it never raises itself. *)
Theorem clip_absent_destination
    (data_path planet_path area_poly area_pbf : string) (w : world) :
  files w !! area_pbf = None →
  let q := String "034"%char "" in
  let convert_cmd :=
    "osmconvert64-0.8.8p  " +:+ planet_path +:+ " -B=" +:+ area_poly
      +:+ " --complete-ways -o=" +:+ area_pbf in
  let osmosis_cmd :=
    "osmosis --read-xml file=" +:+ q +:+ planet_osm_repr +:+ q
      +:+ " --bounding-polygon file=" +:+ q +:+ area_poly +:+ q
      +:+ " --write-xml file=" +:+ q +:+ area_pbf +:+ q in
  let said cmd :=
    [area_pbf +:+ " started!";
     area_pbf +:+ match snd (os_system cmd (files w)) with
                  | Ok => " finished!"
                  | Raise _ => " did not finish!"
                  end] in
  clip_osm_osmconvert os_system data_path planet_path area_poly area_pbf w
  = mkWorld (fst (os_system convert_cmd (files w))) (stdout w ++ said convert_cmd)
            (calls w ++ [convert_cmd])
  ∧ clip_osm_osmosis os_system planet_osm_repr data_path planet_path area_poly area_pbf w
    = mkWorld (fst (os_system osmosis_cmd (files w))) (stdout w ++ said osmosis_cmd)
              (calls w ++ [osmosis_cmd]).
Proof.
  intros Habsent q convert_cmd osmosis_cmd said.
  unfold clip_osm_osmconvert, clip_osm_osmosis.
  rewrite !clip_with_run by done.
  split; f_equal.
Qed.

(** X17. A second run of a clip function runs nothing more when the first
    left its destination behind, and runs the same command once more when it
    did not. *)
Theorem clip_run_again (osm_convert : bool)
    (data_path planet_path area_poly area_pbf : string) (w : world) :
  let clip :=
    clip_function os_system planet_osm_repr osm_convert data_path planet_path area_poly
                  area_pbf in
  files w !! area_pbf = None →
  ∃ cmd,
    calls (clip w) = calls w ++ [cmd]
    ∧ (is_Some (files (clip w) !! area_pbf) →
       calls (clip (clip w)) = calls w ++ [cmd] ∧ files (clip (clip w)) = files (clip w))
    ∧ (files (clip w) !! area_pbf = None →
       calls (clip (clip w)) = calls w ++ [cmd; cmd]).
Proof.
  intros clip Habsent. subst clip.
  assert (∃ cmd, clip_function os_system planet_osm_repr osm_convert data_path planet_path
                                area_poly area_pbf
                 = clip_with os_system cmd area_pbf) as [cmd ->].
  { unfold clip_function. destruct osm_convert; eexists; reflexivity. }
  exists cmd. rewrite (clip_with_run cmd area_pbf w Habsent). cbn [calls files].
  split; [done|]. split.
  - intros Hthere. rewrite clip_with_existing by done. done.
  - intros Hstill. rewrite clip_with_run by done. cbn [calls]. by rewrite <- app_assoc.
Qed.

End ClipMore.

(** ** single_country and all_countries *)

Lemma prefix_append (c s : string) : String.prefix c (c +:+ s) = true.
Proof.
  induction c as [|a c IH]; [by destruct s|].
  rewrite TextFacts.append_cons. cbn [String.prefix].
  by destruct (ascii_dec a a).
Qed.

Lemma split_0_dot (c r : string) :
  Text.occurs "."%char c = false → split_0 (c +:+ "." +:+ r) = c.
Proof.
  intros Hc. unfold split_0.
  rewrite TextFacts.append_cons, TextFacts.append_nil_l.
  by rewrite TextFacts.fields_sep.
Qed.

Lemma zip4_replicate {A B C D E} (a : A) (b : B) (g : E → C) (h : E → D) (l : list E) :
  zip4 (replicate (length (g <$> l)) a) (replicate (length (g <$> l)) b) (g <$> l) (h <$> l)
  = (fun x => (a, b, g x, h x)) <$> l.
Proof.
  induction l as [|x l IH]; [done|].
  cbn [fmap list_fmap length replicate zip4]. f_equal. apply IH.
Qed.

(** A relative last component is joined after a slash. *)
Lemma path_join_relative (a : string) (c : ascii) (s : string) :
  a ≠ "" → (∀ t, String.rev a ≠ String "/" t) → c ≠ "/"%char →
  Text.path_join a (String c s) = a +:+ "/" +:+ String c s.
Proof.
  intros Ha Hslash Hc.
  assert (Hinner : ∀ b, match String.rev a with
                        | String "/"%char _ => a +:+ b
                        | _ => a +:+ "/" +:+ b
                        end = a +:+ "/" +:+ b).
  { intros b. destruct (String.rev a) as [|x t]; [done|].
    destruct x as [[] [] [] [] [] [] [] []]; try done. by destruct (Hslash t). }
  unfold Text.path_join. rewrite bool_decide_eq_false_2 by done.
  destruct c as [[] [] [] [] [] [] [] []]; try apply Hinner. done.
Qed.

Section OrchestrationMore.

Variable centroid : polygon -> coord.
Variable geodesic_km : Q * Q -> Q * Q -> Q.
Variable str_float : Q -> string.
Variable os_system : string -> gmap string string -> gmap string string * result.
Variable planet_osm_repr : string.
Variable read_file : string -> list row.
Variable listdir : string -> gmap string string -> list string.
Variable pool_starmap :
  (string -> string -> string -> string -> world -> world) -> list job -> world
  -> world * result.

(** X18. [all_countries] passes [save_shapefile] to [poly_files], which has
    no such parameter: every call raises TypeError there, before a boundary
    file is written or a command is run. *)
Theorem all_countries_raises (subset : list string)
    (regionalized reversed_order osm_convert : bool) (w : world) :
  all_countries centroid geodesic_km str_float os_system planet_osm_repr read_file listdir
                pool_starmap subset regionalized reversed_order osm_convert w
  = (w, Raise TypeError).
Proof. reflexivity. Qed.

(** X19. [single_country] with [create_poly_files] set raises TypeError in
    the same way, before anything is clipped. *)
Theorem single_country_create_poly_files_raises (country : string)
    (regionalized osm_convert : bool) (w : world) :
  single_country centroid geodesic_km str_float os_system planet_osm_repr read_file listdir
                 pool_starmap country regionalized true osm_convert w
  = (w, Raise TypeError).
Proof. reflexivity. Qed.

(** X20. [single_country] at country level, without [create_poly_files]:
    the one clip is from the planet file, with the boundary file
    [../data/country_poly_files/C.poly], into [../data/country_osm/C.osm.pbf];
    with that extract already there no command is run. *)
Theorem single_country_country_level (country : string) (osm_convert : bool) (w : world) :
  String.prefix "/" country = false →
  let ctry_pbf := "../data/country_osm/" +:+ country +:+ ".osm.pbf" in
  single_country centroid geodesic_km str_float os_system planet_osm_repr read_file listdir
                 pool_starmap country false false osm_convert w
  = (clip_function os_system planet_osm_repr osm_convert "../data"
       "../data/planet_osm/planet-latest.osm.pbf"
       ("../data/country_poly_files/" +:+ country +:+ ".poly") ctry_pbf w, Ok)
  ∧ (is_Some (files w !! ctry_pbf) →
     ∃ w', single_country centroid geodesic_km str_float os_system planet_osm_repr read_file
                          listdir pool_starmap country false false osm_convert w = (w', Ok)
           ∧ calls w' = calls w ∧ files w' = files w).
Proof.
  intros Hrel ctry_pbf.
  assert (Hpoly : path_join3 (Text.path_join ".." "data") "country_poly_files"
                             (country +:+ ".poly")
                  = "../data/country_poly_files/" +:+ country +:+ ".poly").
  { destruct country as [|c s]; [done|].
    unfold path_join3. rewrite TextFacts.append_cons.
    rewrite path_join_relative; [done | done | by intros t | ].
    intros ->. cbn in Hrel. by destruct s. }
  assert (Hpbf : path_join3 (Text.path_join ".." "data") "country_osm"
                            (country +:+ ".osm.pbf") = ctry_pbf).
  { subst ctry_pbf. destruct country as [|c s]; [done|].
    unfold path_join3. rewrite TextFacts.append_cons.
    rewrite path_join_relative; [done | done | by intros t | ].
    intros ->. cbn in Hrel. by destruct s. }
  assert (Hrun :
    single_country centroid geodesic_km str_float os_system planet_osm_repr read_file listdir
                   pool_starmap country false false osm_convert w
    = (clip_function os_system planet_osm_repr osm_convert "../data"
         "../data/planet_osm/planet-latest.osm.pbf"
         ("../data/country_poly_files/" +:+ country +:+ ".poly") ctry_pbf w, Ok)).
  { unfold single_country. cbv zeta. by rewrite Hpoly, Hpbf. }
  split; [exact Hrun|].
  intros Hthere. eexists. split; [exact Hrun|].
  unfold clip_function, clip_osm_osmconvert, clip_osm_osmosis.
  destruct osm_convert; by rewrite clip_with_existing.
Qed.

(** X21. The extract of a boundary file is named after what stands before
    the first dot of the file name. So every regional boundary file
    [C.rest] of a country C (its code free of dots) found in the listing
    gives a job with one and the same destination,
    [region_osm_admin1/C.osm.pbf]. *)
Theorem region_jobs_share_destination (data_path ctry_pbf country : string)
    (listing : list string) (rest : string) :
  Text.occurs "."%char country = false →
  country +:+ "." +:+ rest ∈ listing →
  area_pbf_of data_path (country +:+ "." +:+ rest)
  = path_join3 data_path "region_osm_admin1" (country +:+ ".osm.pbf")
  ∧ (data_path, ctry_pbf,
     path_join3 data_path "regional_poly_files" (country +:+ "." +:+ rest),
     path_join3 data_path "region_osm_admin1" (country +:+ ".osm.pbf"))
    ∈ region_jobs data_path ctry_pbf country listing.
Proof.
  intros Hcode Hin.
  assert (Hdest : area_pbf_of data_path (country +:+ "." +:+ rest)
                  = path_join3 data_path "region_osm_admin1" (country +:+ ".osm.pbf")).
  { unfold area_pbf_of. by rewrite split_0_dot. }
  split; [exact Hdest|].
  unfold region_jobs. rewrite zip4_replicate. apply list_elem_of_fmap.
  exists (country +:+ "." +:+ rest). split; [by rewrite Hdest|].
  apply list_elem_of_filter. split; [|done]. by rewrite prefix_append.
Qed.

End OrchestrationMore.

(** ** planet_osm and gadm36_download *)

Section DownloadsMore.

Variable urlretrieve : string -> string -> gmap string string -> gmap string string * result.
Variable extractall : string -> string -> gmap string string -> gmap string string * result.

(** X22. When a download leaves the file it was asked for, a second
    [planet_osm] downloads nothing: it prints that the planet file is
    already there and changes no file. *)
Theorem planet_osm_second_run (data_path : string) (w w1 : world) (r : result) :
  (∀ url path fs, is_Some (fst (urlretrieve url path fs) !! path)) →
  planet_osm urlretrieve data_path w = (w1, r) →
  planet_osm urlretrieve data_path w1
  = (mkWorld (files w1) (stdout w1 ++ ["Planet file is already downloaded"]) (calls w1), Ok).
Proof.
  intros Hstores Hfirst.
  assert (Hthere : is_Some (files w1 !! Text.path_join (Text.path_join data_path "planet_osm")
                                                        "planet-latest.osm.pbf")).
  { unfold planet_osm, exists_path in Hfirst.
    case_bool_decide as Hw; cbn [negb] in Hfirst.
    - injection Hfirst as <- _. done.
    - pose proof (Hstores "https://planet.openstreetmap.org/pbf/planet-latest.osm.pbf"
                    (Text.path_join (Text.path_join data_path "planet_osm")
                                    "planet-latest.osm.pbf") (files w)) as H.
      destruct (urlretrieve _ _ (files w)) as [fs r'].
      injection Hfirst as <- _. done. }
  unfold planet_osm, exists_path. by rewrite bool_decide_eq_true_2 by done.
Qed.

(** X23. [gadm36_download] works under [../data/GADM36] whatever path it is
    given, and when it finishes a download without an exception the archive
    it fetched is gone. *)
Theorem gadm36_download_removes_archive (data_path : string) (w w' : world) :
  files w !! "../data/GADM36/gadm36_levels.gpkg" = None →
  gadm36_download urlretrieve extractall data_path w = (w', Ok) →
  files w' !! "../data/GADM36/gadm36_levels_gpkg.zip" = None
  ∧ ∀ other_path,
      gadm36_download urlretrieve extractall other_path w = (w', Ok).
Proof.
  intros Habsent Hrun. split; [|by intros other_path].
  unfold gadm36_download, exists_path in Hrun.
  change (Text.path_join (Text.path_join (Text.path_join ".." "data") "GADM36")
                         "gadm36_levels.gpkg")
    with "../data/GADM36/gadm36_levels.gpkg" in Hrun.
  change (Text.path_join (Text.path_join (Text.path_join ".." "data") "GADM36")
                         "gadm36_levels_gpkg.zip")
    with "../data/GADM36/gadm36_levels_gpkg.zip" in Hrun.
  rewrite bool_decide_eq_false_2 in Hrun by (rewrite Habsent; by intros [? ?]).
  cbn [negb] in Hrun.
  destruct (urlretrieve _ _ (files w)) as [fs1 [|e1]]; [|discriminate].
  destruct (extractall _ _ fs1) as [fs2 [|e2]]; [|discriminate].
  unfold os_remove in Hrun. destruct (exists_path _ _); [|discriminate].
  injection Hrun as <-. cbn [files set_files]. apply lookup_delete_eq.
Qed.

End DownloadsMore.

(** ** The further properties on sample data *)

(** The country layer of Luxembourg, Antarctica and Canada: the table has
    Luxembourg and Canada. *)
Lemma country_table_rows_witness :
  let table := [("Luxembourg", Demo.square); ("Canada", Demo.canada)] in
  global_shapefiles_country Demo.planar_area Samples.no_simplify Samples.layer0
  = Returns table
  ∧ (fun nr : string * row => (fst nr, GID_0 (snd nr))) <$> table
    = [("Luxembourg", "LUX"); ("Canada", "CAN")]
  ∧ Forall2 (fun nr0 nr =>
               ∃ g, remove_tiny_shapes Demo.planar_area (snd nr0) false = Returns (Some g)
                    ∧ nr = (fst nr0, set_geom (Samples.no_simplify g) (snd nr0)))
            (filter (fun nr => fst nr ≠ "Antarctica") Samples.layer0) table.
Proof.
  intros table.
  assert (Hrun : global_shapefiles_country Demo.planar_area Samples.no_simplify
                   Samples.layer0 = Returns table) by (vm_compute; reflexivity).
  split; [exact Hrun|].
  destruct (country_table_rows Demo.planar_area Samples.no_simplify Samples.layer0 table
              Hrun) as (_ & _ & Hnames & Hrows).
  split; [vm_compute; reflexivity | exact Hrows].
Defined.

Lemma poly_files_touches_only_artifacts_witness :
  let run :=
    poly_files Demo.first_vertex Demo.grid_km Demo.str_int "data"
               [Demo.square; Samples.unassigned] false Demo.empty_world in
  calls (snd (fst run)) = []
  ∧ is_Some (files (snd (fst run)) !! "data/country_poly_files/LUX.poly")
  ∧ files (snd (fst run)) !! "data/country_poly_files/-.poly" = None.
Proof.
  cbv zeta.
  destruct (poly_files Demo.first_vertex Demo.grid_km Demo.str_int "data"
              [Demo.square; Samples.unassigned] false Demo.empty_world)
    as [[v' w'] r] eqn:Hrun.
  destruct (poly_files_touches_only_artifacts _ _ _ _ _ _ _ _ _ _ Hrun) as [Hcalls _].
  cbn [fst snd]. split; [exact Hcalls|].
  revert Hrun. vm_compute. intros Hrun. injection Hrun as _ <- _.
  split; [eexists; reflexivity | reflexivity].
Defined.

Lemma poly_files_ok_all_present_witness :
  ∃ v' w',
    poly_files Demo.first_vertex Demo.grid_km Demo.str_int "data"
               [Demo.square; Samples.unassigned; Demo.canada] false Demo.empty_world
    = (v', w', Ok)
    ∧ ∃ attr, attr_of false Demo.canada = Some attr
              ∧ is_Some (files w' !! poly_path "data/country_poly_files" attr).
Proof.
  pose (run := poly_files Demo.first_vertex Demo.grid_km Demo.str_int "data"
                 [Demo.square; Samples.unassigned; Demo.canada] false Demo.empty_world).
  assert (Hrun : run = (fst (fst run), snd (fst run), Ok)) by (vm_compute; reflexivity).
  exists (fst (fst run)), (snd (fst run)). split; [exact Hrun|].
  apply (poly_files_ok_all_present _ _ _ _ _ _ _ _ _ Hrun Demo.canada).
  - do 2 apply list_elem_of_further. apply list_elem_of_here.
  - vm_compute. exact I.
Defined.

Lemma poly_files_twice_witness :
  ∃ v' w' w'',
    poly_files Demo.first_vertex Demo.grid_km Demo.str_int "data"
               [Demo.square; Demo.line_row] false Demo.empty_world = (v', w', Ok)
    ∧ poly_files Demo.first_vertex Demo.grid_km Demo.str_int "data"
                 [Demo.square; Demo.line_row] false w' = (v', w'', Ok)
    ∧ files w'' = files w'.
Proof.
  pose (run := poly_files Demo.first_vertex Demo.grid_km Demo.str_int "data"
                 [Demo.square; Demo.line_row] false Demo.empty_world).
  assert (Hrun : run = (fst (fst run), snd (fst run), Ok)) by (vm_compute; reflexivity).
  destruct (poly_files_twice _ _ _ _ _ _ _ _ _ _ Hrun) as (w'' & Hagain & Hsame).
  exists (fst (fst run)), (snd (fst run)), w''.
  split; [exact Hrun|]. split; [exact Hagain | exact Hsame].
Defined.

Lemma poly_files_distinct_codes_witness :
  let t := mkTable ["GID_0"; "NAME_0"; "geometry"]
                   [Demo.square; Samples.unassigned; Demo.canada] in
  ∃ v' w',
    poly_files_table Demo.first_vertex Demo.grid_km Demo.str_int "data" t false
                     Demo.empty_world
    = (v', w', Ok)
    ∧ files w' !! "data/country_poly_files/CAN.poly"
      = Some (poly_text Demo.str_int "CAN" [Demo.toronto_ring]).
Proof.
  intros t.
  assert (Hrows : filter (keep_row false) (table_rows t) = [Demo.square; Demo.canada])
    by (vm_compute; reflexivity).
  destruct (poly_files_distinct_codes Demo.first_vertex Demo.grid_km Demo.str_int "data"
              t false Demo.empty_world)
    as (v' & w' & Hrun & Hfiles).
  - apply list_elem_of_here.
  - discriminate.
  - rewrite Hrows. intros f Hf.
    apply elem_of_cons in Hf as [-> | Hf]; [split; eexists; reflexivity|].
    apply list_elem_of_singleton in Hf as ->. split; eexists; reflexivity.
  - rewrite Hrows. apply (bool_decide_unpack _). vm_compute. exact I.
  - exists v', w'. split; [exact Hrun|].
    assert (Hin : Demo.canada ∈ filter (keep_row false) (table_rows t))
      by (rewrite Hrows; apply list_elem_of_further, list_elem_of_here).
    pose proof (Hfiles Demo.canada "CAN" [Demo.arctic_ring; Demo.toronto_ring]
                       Hin eq_refl eq_refl) as Hcan.
    vm_compute in Hcan. vm_compute. exact Hcan.
Defined.

(** A row without geometry between two good rows: the batch ends there, the
    artifact of the row before is written and stays, that of the row after
    is not written. *)
Lemma exception_ends_batch_witness :
  let run :=
    poly_files Demo.first_vertex Demo.grid_km Demo.str_int "data"
               [Demo.square; Demo.no_geometry; Demo.canada] false Demo.empty_world in
  snd run = Raise AttributeError
  ∧ is_Some (files (snd (fst run)) !! "data/country_poly_files/LUX.poly")
  ∧ files (snd (fst run)) !! "data/country_poly_files/CAN.poly" = None.
Proof.
  pose (st := fst (poly_rows Demo.first_vertex Demo.grid_km Demo.str_int false
                             "data/country_poly_files"
                             (mkVars 0 None, Demo.empty_world) [Demo.square])).
  pose (st' := fst (poly_row Demo.first_vertex Demo.grid_km Demo.str_int false
                             "data/country_poly_files" st Demo.no_geometry)).
  assert (Hpre : poly_rows Demo.first_vertex Demo.grid_km Demo.str_int false
                   "data/country_poly_files"
                   (mkVars 0 None, Demo.empty_world) [Demo.square] = (st, Ok))
    by (vm_compute; reflexivity).
  assert (Hf : poly_row Demo.first_vertex Demo.grid_km Demo.str_int false
                 "data/country_poly_files" st Demo.no_geometry
               = (st', Raise AttributeError))
    by (vm_compute; reflexivity).
  destruct (exception_ends_batch Demo.first_vertex Demo.grid_km Demo.str_int "data"
              [Demo.square; Demo.no_geometry; Demo.canada] false Demo.empty_world
              [Demo.square] [Demo.canada] Demo.no_geometry st st' AttributeError
              eq_refl Hpre Hf) as [Hrun _].
  cbv zeta. rewrite Hrun. cbn [fst snd].
  split; [reflexivity|]. split; [vm_compute; eexists; reflexivity | vm_compute; reflexivity].
Defined.

(** C8 as stated fails: a row whose geometry is a line, first in the batch,
    raises ([polygons] is not bound), and the exception ends the batch: the
    artifact of the next row, [LUX.poly], is never written. *)
Lemma malformed_row_aborts_batch :
  let '(_, w', r) :=
    poly_files Demo.first_vertex Demo.grid_km Demo.str_int "data"
               [Demo.line_row; Demo.square] false Demo.empty_world in
  r = Raise UnboundLocalError
  ∧ files w' !! "data/country_poly_files/AAA.poly" = Some ("AAA" +:+ Text.nl)
  ∧ files w' !! "data/country_poly_files/LUX.poly" = None.
Proof.
  vm_compute. repeat split.
Qed.

Lemma clip_absent_destination_witness :
  files Demo.empty_world !! "out/LUX.osm.pbf" = None
  ∧ stdout (clip_osm_osmconvert Samples.missing_tool "data" "planet.osm.pbf"
              "data/country_poly_files/LUX.poly" "out/LUX.osm.pbf" Demo.empty_world)
    = ["out/LUX.osm.pbf started!"; "out/LUX.osm.pbf finished!"]
  ∧ files (clip_osm_osmconvert Samples.missing_tool "data" "planet.osm.pbf"
             "data/country_poly_files/LUX.poly" "out/LUX.osm.pbf" Demo.empty_world)
      !! "out/LUX.osm.pbf" = None.
Proof.
  split; [reflexivity|].
  destruct (clip_absent_destination Samples.missing_tool "planet_osm" "data" "planet.osm.pbf"
              "data/country_poly_files/LUX.poly" "out/LUX.osm.pbf" Demo.empty_world eq_refl)
    as [-> _].
  split; reflexivity.
Defined.

Lemma clip_run_again_witness :
  files Demo.empty_world !! "out/LUX.osm.pbf" = None
  ∧ ∃ cmd,
      calls (clip_osm_osmconvert Samples.missing_tool "data" "planet.osm.pbf"
               "data/country_poly_files/LUX.poly" "out/LUX.osm.pbf"
               (clip_osm_osmconvert Samples.missing_tool "data" "planet.osm.pbf"
                  "data/country_poly_files/LUX.poly" "out/LUX.osm.pbf" Demo.empty_world))
      = [cmd; cmd].
Proof.
  split; [reflexivity|].
  destruct (clip_run_again Samples.missing_tool "planet_osm" true "data" "planet.osm.pbf"
              "data/country_poly_files/LUX.poly" "out/LUX.osm.pbf" Demo.empty_world eq_refl)
    as (cmd & _ & _ & Hretry).
  exists cmd. apply Hretry. reflexivity.
Defined.

Lemma single_country_country_level_witness :
  String.prefix "/" "LUX" = false
  ∧ ∃ w',
      single_country Demo.first_vertex Demo.grid_km Demo.str_int
        (Demo.fake_tool "../data/country_osm/LUX.osm.pbf") "planet_osm" Samples.no_table
        Samples.no_listing Samples.no_pool "LUX" false false true Samples.clipped_world
      = (w', Ok)
      ∧ calls w' = [] ∧ files w' = files Samples.clipped_world.
Proof.
  split; [reflexivity|].
  destruct (single_country_country_level Demo.first_vertex Demo.grid_km Demo.str_int
              (Demo.fake_tool "../data/country_osm/LUX.osm.pbf") "planet_osm" Samples.no_table
              Samples.no_listing Samples.no_pool "LUX" true Samples.clipped_world eq_refl)
    as [_ Hthere].
  apply Hthere. exists "pbf". reflexivity.
Defined.

Lemma region_jobs_share_destination_witness :
  Text.occurs "."%char "USA" = false
  ∧ ("../data", "../data/country_osm/USA.osm.pbf",
     "../data/regional_poly_files/USA.1_1.poly", "../data/region_osm_admin1/USA.osm.pbf")
    ∈ region_jobs "../data" "../data/country_osm/USA.osm.pbf" "USA"
        ["USA.1_1.poly"; "CAN.8_1.poly"; "USA.2_1.poly"]
  ∧ ("../data", "../data/country_osm/USA.osm.pbf",
     "../data/regional_poly_files/USA.2_1.poly", "../data/region_osm_admin1/USA.osm.pbf")
    ∈ region_jobs "../data" "../data/country_osm/USA.osm.pbf" "USA"
        ["USA.1_1.poly"; "CAN.8_1.poly"; "USA.2_1.poly"].
Proof.
  split; [reflexivity|]. split.
  - apply (region_jobs_share_destination "../data" "../data/country_osm/USA.osm.pbf" "USA"
             ["USA.1_1.poly"; "CAN.8_1.poly"; "USA.2_1.poly"] "1_1.poly" eq_refl).
    apply list_elem_of_here.
  - apply (region_jobs_share_destination "../data" "../data/country_osm/USA.osm.pbf" "USA"
             ["USA.1_1.poly"; "CAN.8_1.poly"; "USA.2_1.poly"] "2_1.poly" eq_refl).
    do 2 apply list_elem_of_further. apply list_elem_of_here.
Defined.

Lemma planet_osm_second_run_witness :
  ∃ w1,
    planet_osm Samples.fake_download "data" Demo.empty_world = (w1, Ok)
    ∧ is_Some (files w1 !! "data/planet_osm/planet-latest.osm.pbf")
    ∧ planet_osm Samples.fake_download "data" w1
      = (mkWorld (files w1) ["Planet file is already downloaded"] [], Ok).
Proof.
  pose (w1 := fst (planet_osm Samples.fake_download "data" Demo.empty_world)).
  assert (Hstores : ∀ url path fs, is_Some (fst (Samples.fake_download url path fs) !! path)).
  { intros url path fs. unfold Samples.fake_download. cbn [fst].
    rewrite lookup_insert_eq. eexists. reflexivity. }
  exists w1. split; [reflexivity|]. split; [eexists; reflexivity|].
  exact (planet_osm_second_run Samples.fake_download "data" Demo.empty_world w1 Ok
           Hstores eq_refl).
Defined.

Lemma gadm36_download_removes_archive_witness :
  ∃ w',
    gadm36_download Samples.fake_download Samples.fake_extract "anywhere" Demo.empty_world
    = (w', Ok)
    ∧ is_Some (files w' !! "../data/GADM36/gadm36_levels.gpkg")
    ∧ files w' !! "../data/GADM36/gadm36_levels_gpkg.zip" = None.
Proof.
  pose (run := gadm36_download Samples.fake_download Samples.fake_extract "anywhere"
                 Demo.empty_world).
  assert (Hrun : run = (fst run, Ok)) by (vm_compute; reflexivity).
  exists (fst run). split; [exact Hrun|].
  split; [vm_compute; eexists; reflexivity|].
  exact (proj1 (gadm36_download_removes_archive Samples.fake_download Samples.fake_extract
                  "anywhere" Demo.empty_world (fst run) eq_refl Hrun)).
Defined.
